(** * A caching recursive DNS server: wire codec, cache, resolver, server loop

    Shallow embedding of [parse_data.py], [pack_data.py], [cache_dns.py],
    [resolver_dns.py] and [server.py].

    Conventions.
    - A Python [int] is a [Z]; a cursor or a length (never negative in the
      source) is a [nat]; [bytes] is a [list byte]; a [str] is a [string]
      whose characters are the code points 0..255.
    - A call either returns, raises, or is still running when the budget of
      loop iterations ([fuel]) is used up: [outcome].  Nested calls of the
      resolver are counted against the interpreter's recursion limit
      ([stack]); when it is used up the call raises [RecursionError].
    - [datetime] values are microseconds on the [Z] line; a [timedelta] is
      normalised the way CPython does it (see [timedelta_seconds]). *)

From Stdlib Require Import ZArith NArith Strings.Byte Ascii String List.
From Stdlib Require Import DecimalString HexadecimalString Lia.
From stdpp Require Import gmap strings list.

Local Open Scope string_scope.
Local Open Scope list_scope.
Local Open Scope nat_scope.

(** ** Exceptions and outcomes *)

Inductive value_error :=
| InvalidCompressionOffset
| InvalidLabelLength (b : N)
| LabelExceedsPacketBounds
| InvalidASCII
| UnsupportedRecordType (t : Z).

Inductive exn :=
| ValueError (why : value_error)
| IndexError
| StructError
| TypeError
| AttributeError (attr : string)
| SocketError
| RecursionError.

Inductive outcome (T : Type) :=
| Done (x : T)
| Raise (e : exn)
| Diverge.
Arguments Done {T} x.
Arguments Raise {T} e.
Arguments Diverge {T}.

#[global] Instance outcome_ret : MRet outcome := fun T x => Done x.
#[global] Instance outcome_bind : MBind outcome := fun T U f m =>
  match m with
  | Done x => f x
  | Raise e => Raise e
  | Diverge => Diverge
  end.

(** ** Bytes, slices, [struct] *)

Definition ord (b : byte) : Z := Z.of_N (Byte.to_N b).

Definition chr (z : Z) : byte :=
  match Byte.of_N (Z.to_N (z mod 256)) with
  | Some b => b
  | None => x00
  end.

(** [l[a:b]] for [0 <= a]. *)
Definition slice {T} (l : list T) (a b : nat) : list T := take (b - a) (drop a l).

(** Big-endian unsigned value of a byte string. *)
Definition be_uint (bs : list byte) : Z :=
  fold_left (fun acc b => (acc * 256 + ord b)%Z) bs 0%Z.

(** [struct.pack("!B", v)] and [("!H", v)]: out of range is
    [struct.error]. *)
Definition pack_B (v : Z) : outcome (list byte) :=
  if ((0 <=? v) && (v <? 256))%Z then Done [chr v] else Raise StructError.

Definition pack_H (v : Z) : outcome (list byte) :=
  if ((0 <=? v) && (v <? 65536))%Z then Done [chr (v / 256); chr v]
  else Raise StructError.

(** [struct.pack("Ns", bs)]: cut or zero-padded to [n] bytes. *)
Definition pack_s (n : nat) (bs : list byte) : list byte :=
  take n bs ++ replicate (n - length bs) x00.

Fixpoint pack_all (p : Z -> outcome (list byte)) (vs : list Z) : outcome (list byte) :=
  match vs with
  | [] => Done []
  | v :: vs' => b ← p v; bs ← pack_all p vs'; mret (b ++ bs)
  end.

(** [struct.unpack("!HH", buf)]. *)
Definition unpack_HH (buf : list byte) : outcome (Z * Z) :=
  match buf with
  | [a1; a2; b1; b2] => Done (be_uint [a1; a2], be_uint [b1; b2])
  | _ => Raise StructError
  end.

(** [struct.unpack("!6H", buf)]. *)
Definition unpack_6H (buf : list byte) : outcome (Z * Z * Z * Z * Z * Z) :=
  match buf with
  | [a1; a2; b1; b2; c1; c2; d1; d2; e1; e2; f1; f2] =>
      Done (be_uint [a1; a2], be_uint [b1; b2], be_uint [c1; c2],
            be_uint [d1; d2], be_uint [e1; e2], be_uint [f1; f2])
  | _ => Raise StructError
  end.

(** [struct.unpack("!HHIH", buf)]. *)
Definition unpack_HHIH (buf : list byte) : outcome (Z * Z * Z * Z) :=
  match buf with
  | [a1; a2; b1; b2; c1; c2; c3; c4; d1; d2] =>
      Done (be_uint [a1; a2], be_uint [b1; b2], be_uint [c1; c2; c3; c4],
            be_uint [d1; d2])
  | _ => Raise StructError
  end.

(** [struct.unpack(f"!{n}B", buf)]. *)
Definition unpack_nB (n : nat) (buf : list byte) : outcome (list Z) :=
  if length buf =? n then Done (map ord buf) else Raise StructError.

Fixpoint pairs_be (buf : list byte) : list Z :=
  match buf with
  | hi :: lo :: rest => be_uint [hi; lo] :: pairs_be rest
  | _ => []
  end.

(** [struct.unpack(f"!{n}H", buf)]. *)
Definition unpack_nH (n : nat) (buf : list byte) : outcome (list Z) :=
  if length buf =? 2 * n then Done (pairs_be buf) else Raise StructError.

(** ** Strings *)

(** [s.split(".")]. *)
Fixpoint split_dot (s : string) : list string :=
  match s with
  | EmptyString => [""]
  | String c s' =>
      if Ascii.eqb c "." then "" :: split_dot s'
      else match split_dot s' with
           | h :: t => String c h :: t
           | [] => [String c ""]
           end
  end.

(** [sep.join(parts)]. *)
Definition join (sep : string) (parts : list string) : string :=
  String.concat sep parts.

(** [bs.decode('ascii')]: [None] stands for [UnicodeDecodeError]. *)
Definition decode_ascii (bs : list byte) : option string :=
  if forallb (fun b => (Byte.to_N b <? 128)%N) bs
  then Some (string_of_list_byte bs) else None.

Fixpoint decode_all (parts : list (list byte)) : option (list string) :=
  match parts with
  | [] => Some []
  | p :: ps =>
      match decode_ascii p, decode_all ps with
      | Some s, Some ss => Some (s :: ss)
      | _, _ => None
      end
  end.

(** [s.encode()] (UTF-8) on code points 0..255. *)
Definition encode_char (c : ascii) : list byte :=
  let n := N_of_ascii c in
  if (n <? 128)%N then [byte_of_ascii c]
  else [chr (Z.of_N (N.lor 192 (N.shiftr n 6)));
        chr (Z.of_N (N.lor 128 (N.land n 63)))].

Fixpoint encode (s : string) : list byte :=
  match s with
  | EmptyString => []
  | String c s' => encode_char c ++ encode s'
  end.

(** [str(n)] for [0 <= n]. *)
Definition str (z : Z) : string :=
  DecimalString.NilZero.string_of_uint (N.to_uint (Z.to_N z)).

(** [f"{n:04x}"] for [0 <= n]. *)
Definition hex04 (z : Z) : string :=
  let h := HexadecimalString.NilZero.string_of_uint (N.to_hex_uint (Z.to_N z)) in
  string_of_list_ascii (replicate (4 - String.length h) "0"%char) ++ h.

(** ** parse_data.py *)

Module DNSRecordType.
Inductive t := A | NS | PTR | AAAA.
Definition value (x : t) : Z :=
  match x with A => 1 | NS => 2 | PTR => 12 | AAAA => 28 end%Z.
End DNSRecordType.

Module DNSClass.
Inductive t := IN.
Definition value (x : t) : Z := match x with IN => 1 end%Z.
End DNSClass.

Record DNSHeader := {
  packet_id : Z;
  flags : Z;
  questions_count : Z;
  answers_count : Z;
  authority_count : Z;
  additional_count : Z
}.

(** The fields of a question carry the prefix [q_]: a resource record has
    fields of the same names. *)
Record DNSQuestion := {
  q_domain : string;
  q_record_type : Z;
  q_record_class : Z
}.

Record DNSResourceRecord := {
  domain : string;
  record_type : Z;
  record_class : Z;
  ttl : Z;
  data_length : Z;
  data : string
}.

Record DNSPacket := {
  raw_data : list byte;
  _position : nat;
  header : DNSHeader;
  questions : list DNSQuestion;
  answers : list DNSResourceRecord;
  authority_records : list DNSResourceRecord;
  additional_records : list DNSResourceRecord
}.

Definition _parse_header (raw : list byte) (pos : nat) : outcome (DNSHeader * nat) :=
  let header_size := 12 in
  '(i, f, qd, an, ns, ar) ← unpack_6H (take header_size raw);
  mret ({| packet_id := i; flags := f; questions_count := qd;
           answers_count := an; authority_count := ns;
           additional_count := ar |}, pos + header_size).

(** The [while True] loop of [_read_domain_name]; one unit of [fuel] per
    iteration.  Returns the labels read and the cursor the caller resumes
    at. *)
Fixpoint read_loop (fuel : nat) (raw : list byte) (current_pos : nat)
    (compression_offset : option nat) (name_parts : list (list byte))
    : outcome (list (list byte) * nat) :=
  match fuel with
  | O => Diverge
  | S fuel' =>
      match raw !! current_pos with
      | None => Raise IndexError
      | Some b =>
          if (N.land (Byte.to_N b) 0xC0 =? 0xC0)%N then
            let compression_offset' :=
              match compression_offset with
              | None => Some (current_pos + 2)
              | Some c => Some c
              end in
            match raw !! (current_pos + 1) with
            | None => Raise IndexError
            | Some lo =>
                let offset :=
                  N.to_nat (N.lor (N.shiftl (N.land (Byte.to_N b) 0x3F) 8)
                                  (Byte.to_N lo)) in
                if length raw <=? offset
                then Raise (ValueError InvalidCompressionOffset)
                else read_loop fuel' raw offset compression_offset' name_parts
            end
          else if (63 <? Byte.to_N b)%N then
            Raise (ValueError (InvalidLabelLength (Byte.to_N b)))
          else if (Byte.to_N b =? 0)%N then
            Done (name_parts,
                  match compression_offset with
                  | None => current_pos + 1
                  | Some c => c
                  end)
          else
            let label_length := N.to_nat (Byte.to_N b) in
            let current_pos := current_pos + 1 in
            let label_end := current_pos + label_length in
            if length raw <? label_end
            then Raise (ValueError LabelExceedsPacketBounds)
            else read_loop fuel' raw label_end compression_offset
                   (name_parts ++ [slice raw current_pos label_end])
      end
  end.

Definition _read_domain_name (fuel : nat) (raw : list byte) (pos : nat)
    : outcome (string * nat) :=
  '(name_parts, pos') ← read_loop fuel raw pos None [];
  match decode_all name_parts with
  | Some labels => Done (join "." labels, pos')
  | None => Raise (ValueError InvalidASCII)
  end.

Fixpoint questions_loop (fuel : nat) (raw : list byte) (count : nat) (pos : nat)
    (acc : list DNSQuestion) : outcome (list DNSQuestion * nat) :=
  match count with
  | O => Done (acc, pos)
  | S count' =>
      let question_size := 4 in
      '(name, pos) ← _read_domain_name fuel raw pos;
      '(t, c) ← unpack_HH (slice raw pos (pos + question_size));
      questions_loop fuel raw count' (pos + question_size)
        (acc ++ [{| q_domain := name; q_record_type := t; q_record_class := c |}])
  end.

Definition _parse_questions (fuel : nat) (raw : list byte) (h : DNSHeader)
    (pos : nat) : outcome (list DNSQuestion * nat) :=
  questions_loop fuel raw (Z.to_nat (questions_count h)) pos [].

Definition _parse_record_data (fuel : nat) (raw : list byte) (pos : nat)
    (record_type data_length : Z) : outcome (string * nat) :=
  let n := Z.to_nat data_length in
  if (record_type =? DNSRecordType.value DNSRecordType.A)%Z then
    octets ← unpack_nB n (slice raw pos (pos + n));
    mret (join "." (map str octets), pos + n)
  else if ((record_type =? DNSRecordType.value DNSRecordType.NS)
           || (record_type =? DNSRecordType.value DNSRecordType.PTR))%Z then
    _read_domain_name fuel raw pos
  else if (record_type =? DNSRecordType.value DNSRecordType.AAAA)%Z then
    hextets ← unpack_nH (n / 2) (slice raw pos (pos + n));
    mret (join ":" (map hex04 hextets), pos + n)
  else Raise (ValueError (UnsupportedRecordType record_type)).

Fixpoint _parse_record_section (fuel : nat) (raw : list byte) (count : nat)
    (pos : nat) (records : list DNSResourceRecord)
    : outcome (list DNSResourceRecord * nat) :=
  match count with
  | O => Done (records, pos)
  | S count' =>
      let record_header_size := 10 in
      '(name, pos) ← _read_domain_name fuel raw pos;
      '(r_type, r_class, r_ttl, data_len) ←
         unpack_HHIH (slice raw pos (pos + record_header_size));
      let pos := pos + record_header_size in
      '(record_data, pos) ← _parse_record_data fuel raw pos r_type data_len;
      _parse_record_section fuel raw count' pos
        (records ++ [{| domain := name; record_type := r_type;
                        record_class := r_class; ttl := r_ttl;
                        data_length := data_len; data := record_data |}])
  end.

(** [DNSPacket(raw)]: the dataclass constructor followed by
    [__post_init__]. *)
Definition __post_init__ (fuel : nat) (raw : list byte) : outcome DNSPacket :=
  '(h, pos) ← _parse_header raw 0;
  '(qs, pos) ← _parse_questions fuel raw h pos;
  '(ans, pos) ← _parse_record_section fuel raw (Z.to_nat (answers_count h)) pos [];
  '(auth, pos) ← _parse_record_section fuel raw (Z.to_nat (authority_count h)) pos [];
  '(add, pos) ← _parse_record_section fuel raw (Z.to_nat (additional_count h)) pos [];
  mret {| raw_data := raw; _position := pos; header := h; questions := qs;
          answers := ans; authority_records := auth; additional_records := add |}.

(** ** pack_data.py *)

Definition create_error_response (request_id : list byte) : outcome (list byte) :=
  body ← pack_all pack_H [Z.lor (Z.shiftl 1 15) (Z.shiftl 4 8); 0; 0; 0; 0]%Z;
  mret (request_id ++ body).

Definition encode_label (label : string) : outcome (list byte) :=
  let label_len := String.length label in
  n ← pack_B (Z.of_nat label_len);
  mret (n ++ pack_s label_len (encode label)).

Fixpoint encode_labels (labels : list string) (total_length : nat)
    (encoded : list byte) : outcome (nat * list byte) :=
  match labels with
  | [] => Done (total_length, encoded)
  | label :: rest =>
      e ← encode_label label;
      encode_labels rest (total_length + (String.length label + 1)) (encoded ++ e)
  end.

Definition encode_domain_name (domain : string) : outcome (nat * list byte) :=
  '(total_length, encoded) ← encode_labels (split_dot domain) 0 [];
  mret (total_length + 1, encoded ++ [x00]).

Definition build_query_packet (query_id : Z) (domain : string)
    (record_type record_class : Z) : outcome (list byte) :=
  hdr ← pack_all pack_H [query_id; 0x0100; 1; 0; 0; 0]%Z;
  '(_, encoded_domain) ← encode_domain_name domain;
  tc ← pack_all pack_H [record_type; record_class];
  mret (hdr ++ (encoded_domain ++ tc)).

(** ** cache_dns.py *)

(** [(datetime.now() - cached_time).seconds]: CPython normalises a
    [timedelta] to days, seconds in [0, 86400) and microseconds in
    [0, 10^6); [.seconds] is the middle component. *)
Definition timedelta_seconds (now cached_time : Z) : Z :=
  (((now - cached_time) / 1000000) mod 86400)%Z.

(** The instance attributes [__init__] sets.  The cleanup thread and the
    lock carry no state the sequential model needs. *)
Record DNSCache := {
  cache_file : string;
  cache_data : gmap string (gmap Z (Z * list DNSResourceRecord))
}.

Definition set_cache_data (self : DNSCache)
    (m : gmap string (gmap Z (Z * list DNSResourceRecord))) : DNSCache :=
  {| cache_file := cache_file self; cache_data := m |}.

Definition add_records (self : DNSCache) (now : Z) (domain_name : string)
    (query_type : Z) (records : list DNSResourceRecord) : DNSCache :=
  let m :=
    match cache_data self !! domain_name with
    | None => <[domain_name := ∅]> (cache_data self)
    | Some _ => cache_data self
    end in
  match m !! domain_name with
  | Some inner =>
      match inner !! query_type with
      | None => set_cache_data self (<[domain_name := <[query_type := (now, records)]> inner]> m)
      | Some _ => set_cache_data self m
      end
  | None => set_cache_data self m
  end.

Definition _records_expired (now : Z) (entry : Z * list DNSResourceRecord) : bool :=
  let '(cached_time, records) := entry in
  let time_elapsed := timedelta_seconds now cached_time in
  existsb (fun record => (ttl record <=? time_elapsed)%Z) records.

(** Called only for an entry that is in the map ([pop] raises [KeyError]
    otherwise). *)
Definition _remove_expired_records (self : DNSCache) (domain_name : string)
    (query_type : Z) : DNSCache :=
  match cache_data self !! domain_name with
  | Some inner =>
      let inner' := delete query_type inner in
      if decide (inner' = ∅)
      then set_cache_data self (delete domain_name (cache_data self))
      else set_cache_data self (<[domain_name := inner']> (cache_data self))
  | None => self
  end.

Definition get_records (self : DNSCache) (now : Z) (domain_name : string)
    (query_type : Z) : DNSCache * option (list DNSResourceRecord) :=
  match cache_data self !! domain_name with
  | Some inner =>
      match inner !! query_type with
      | Some entry =>
          if _records_expired now entry
          then (_remove_expired_records self domain_name query_type, None)
          else (self, Some (snd entry))
      | None => (self, None)
      end
  | None => (self, None)
  end.

(** What an attribute of a [DNSCache] instance evaluates to. *)
Inductive attribute :=
| AStr (s : string)
| AMap (m : gmap string (gmap Z (Z * list DNSResourceRecord)))
| AThread
| ALock
| AMethod (name : string).

Definition DNSCache_methods : list string :=
  ["initialize_cache"; "start_cleanup_process"; "add_records"; "get_records";
   "_run_cache_cleanup"; "_remove_expired_records"; "_records_expired";
   "save_cache"; "shutdown"].

(** [self.<name>] on a [DNSCache]: the instance dictionary, then the
    class. *)
Definition getattr (self : DNSCache) (name : string) : outcome attribute :=
  if String.eqb name "cache_file" then Done (AStr (cache_file self))
  else if String.eqb name "cache_data" then Done (AMap (cache_data self))
  else if String.eqb name "cleanup_thread" then Done AThread
  else if String.eqb name "lock" then Done ALock
  else if existsb (String.eqb name) DNSCache_methods then Done (AMethod name)
  else Raise (AttributeError name).

(** The files on disk: a path holds the object last pickled into it, or
    nothing after [open(path, "wb")] alone. *)
Definition filesystem : Type := gmap string (option attribute).

Definition save_cache (self : DNSCache) (fs : filesystem)
    : filesystem * outcome unit :=
  match getattr self "buffer" with
  | Done buffer =>
      match getattr self "path" with
      | Done (AStr path) => (<[path := Some buffer]> fs, Done tt)
      | Done _ => (fs, Raise TypeError)
      | Raise e => (fs, Raise e)
      | Diverge => (fs, Diverge)
      end
  | Raise e => (fs, Raise e)
  | Diverge => (fs, Diverge)
  end.

(** [cleanup_thread.join(timeout=1)] returns after the timeout; then the
    cache is saved. *)
Definition shutdown (self : DNSCache) (fs : filesystem)
    : filesystem * outcome unit :=
  save_cache self fs.

(** ** resolver_dns.py *)

(** The upstream servers: what the datagram sent to [(ip, port)] is answered
    with, or the exception the socket raises (a timeout, say). *)
Definition network : Type := string -> Z -> list byte -> outcome (list byte).

(** The fields come from the configuration loader. *)
Record DNSResolver := {
  request_size : nat;
  root_server_ip : string;
  root_server_port : Z
}.

Definition _query_dns_server (self : DNSResolver) (net : network)
    (request : list byte) (server_ip : string) (server_port : Z)
    : outcome (list byte) :=
  datagram ← net server_ip server_port request;
  mret (take (request_size self) datagram).

(** [_resolve_name_to_ips], with the nested call to [recursive_resolve]
    passed in as [resolve]. *)
Definition _resolve_name_to_ips
    (resolve : list byte -> option string -> Z -> outcome (option DNSPacket))
    (query_id : Z) (domain_name : string) : outcome (option (list string)) :=
  query ← build_query_packet query_id domain_name
            (DNSRecordType.value DNSRecordType.A) (DNSClass.value DNSClass.IN);
  response ← resolve query None 53%Z;
  match response with
  | Some r => Done (Some (map data (answers r)))
  | None => Done None
  end.

(** The outer [for] of [_handle_authoritative_records]; the inner [for]
    returns at the first additional record of type A. *)
Fixpoint authority_loop
    (resolve : list byte -> option string -> Z -> outcome (option DNSPacket))
    (dns_query : list byte) (response_packet : DNSPacket)
    (auths : list DNSResourceRecord) : outcome (option DNSPacket) :=
  match auths with
  | [] => Done None
  | auth_record :: rest =>
      match List.find (fun r => (record_type r =? DNSRecordType.value DNSRecordType.A)%Z)
                      (additional_records response_packet) with
      | Some additional_record =>
          resolve dns_query (Some (data additional_record)) 53%Z
      | None =>
          resolved_ips ← _resolve_name_to_ips resolve
                           (packet_id (header response_packet)) (data auth_record);
          match resolved_ips with
          | Some (ip :: _) => resolve dns_query (Some ip) 53%Z
          | _ => authority_loop resolve dns_query response_packet rest
          end
      end
  end.

Definition _handle_authoritative_records
    (resolve : list byte -> option string -> Z -> outcome (option DNSPacket))
    (dns_query : list byte) (response_packet : DNSPacket)
    : outcome (option DNSPacket) :=
  authority_loop resolve dns_query response_packet
    (authority_records response_packet).

(** [target_server_ip or self.root_server_ip]: [None] and the empty string
    are false. *)
Definition or_root_ip (self : DNSResolver) (target_server_ip : option string)
    : string :=
  match target_server_ip with
  | Some ip => if String.eqb ip "" then root_server_ip self else ip
  | None => root_server_ip self
  end.

(** [target_server_port or self.root_server_port]: 0 is false. *)
Definition or_root_port (self : DNSResolver) (target_server_port : Z) : Z :=
  if (target_server_port =? 0)%Z then root_server_port self
  else target_server_port.

(** [recursive_resolve].  [stack] is the number of nested activations of
    [recursive_resolve] that the interpreter's recursion limit still leaves
    room for (with the default limit of 1000 frames and two frames per hop,
    about 500): each activation takes one, and with none left the call
    raises [RecursionError], which nothing in the resolver catches.  [fuel]
    is the budget of loop iterations for each name of the packets
    decoded. *)
Fixpoint recursive_resolve (fuel stack : nat) (self : DNSResolver)
    (net : network) (dns_query : list byte) (target_server_ip : option string)
    (target_server_port : Z) : outcome (option DNSPacket) :=
  match stack with
  | O => Raise RecursionError
  | S stack' =>
      let target_server_ip := or_root_ip self target_server_ip in
      let target_server_port := or_root_port self target_server_port in
      response ← _query_dns_server self net dns_query target_server_ip
                   target_server_port;
      response_packet ← __post_init__ fuel response;
      if (0 <? answers_count (header response_packet))%Z then
        Done (Some response_packet)
      else if (0 <? authority_count (header response_packet))%Z then
        _handle_authoritative_records (recursive_resolve fuel stack' self net)
          dns_query response_packet
      else Done None
  end.

(** ** server.py *)

(** What [_process_question] hands back: its annotation promises a list of
    records, the interpreter does not enforce it. *)
Inductive returned :=
| RList (records : list DNSResourceRecord)
| RRecord (record : DNSResourceRecord).

Record Server := {
  _handle_flag : bool;
  socket_open : bool;
  _cacher : option DNSCache;
  _resolver : DNSResolver
}.

(** [_process_question]: [now] is the clock when the cache is read,
    [now'] when the answer is stored.  Returns the cache as it is left.
    Every exception of the resolution, [RecursionError] among them, ends in
    the empty list. *)
Definition _process_question (fuel stack : nat) (cacher : DNSCache)
    (resolver : DNSResolver) (net : network) (now now' : Z)
    (question : DNSQuestion) (packet_id : Z) : DNSCache * outcome returned :=
  match get_records cacher now (q_domain question) (q_record_type question) with
  | (cacher, Some cached_records) =>
      match cached_records !! 1 with
      | Some r => (cacher, Done (RRecord r))
      | None => (cacher, Raise IndexError)
      end
  | (cacher, None) =>
      match build_query_packet packet_id (q_domain question)
              (q_record_type question) (q_record_class question) with
      | Done q_request =>
          match recursive_resolve fuel stack resolver net q_request None 53%Z with
          | Done (Some answer) =>
              match answers answer with
              | [] => (cacher, Done (RList []))
              | _ :: _ =>
                  (add_records cacher now' (q_domain question)
                     (q_record_type question) (answers answer),
                   Done (RList (answers answer)))
              end
          | Done None => (cacher, Done (RList []))
          | Raise _ => (cacher, Done (RList []))
          | Diverge => (cacher, Diverge)
          end
      | Raise e => (cacher, Raise e)
      | Diverge => (cacher, Diverge)
      end
  end.

(** [total_a_records.extend(records)]. *)
Definition extend (total : list DNSResourceRecord) (records : returned)
    : outcome (list DNSResourceRecord) :=
  match records with
  | RList l => Done (total ++ l)
  | RRecord _ => Raise TypeError
  end.

(** A method of the cache that takes no argument, called through its
    name. *)
Definition call_method (name : string) (self : DNSCache) (fs : filesystem)
    : filesystem * outcome unit :=
  if String.eqb name "save_cache" then save_cache self fs
  else if String.eqb name "shutdown" then shutdown self fs
  else (fs, Raise TypeError).

Definition call_attribute (a : outcome attribute) (self : DNSCache)
    (fs : filesystem) : filesystem * outcome unit :=
  match a with
  | Done (AMethod name) => call_method name self fs
  | Done _ => (fs, Raise TypeError)
  | Raise e => (fs, Raise e)
  | Diverge => (fs, Diverge)
  end.

Definition _close (self : Server) (fs : filesystem)
    : Server * filesystem * outcome unit :=
  let self := {| _handle_flag := false; socket_open := false;
                 _cacher := _cacher self; _resolver := _resolver self |} in
  match _cacher self with
  | Some cacher =>
      match call_attribute (getattr cacher "save") cacher fs with
      | (fs, Done _) =>
          let '(fs, r) := call_attribute (getattr cacher "close") cacher fs in
          (self, fs, r)
      | (fs, r) => (self, fs, r)
      end
  | None => (self, fs, Done tt)
  end.

(** ** Sample data *)

Definition example_record : DNSResourceRecord :=
  {| domain := "example.com"; record_type := 1; record_class := 1;
     ttl := 3600; data_length := 4; data := "93.184.216.34" |}.

Definition second_record : DNSResourceRecord :=
  {| domain := "example.com"; record_type := 1; record_class := 1;
     ttl := 3600; data_length := 4; data := "93.184.216.35" |}.

(** A cache holding ("example.com", A) as stored at time 0. *)
Definition example_cache : DNSCache :=
  {| cache_file := "cache.bin";
     cache_data := {[ "example.com" := {[ 1%Z := (0%Z, [example_record]) ]} ]} |}.

Definition two_record_cache : DNSCache :=
  {| cache_file := "cache.bin";
     cache_data :=
       {[ "example.com" := {[ 1%Z := (0%Z, [example_record; second_record]) ]} ]} |}.

Definition example_question : DNSQuestion :=
  {| q_domain := "example.com"; q_record_type := 1; q_record_class := 1 |}.

Definition example_resolver : DNSResolver :=
  {| request_size := 512; root_server_ip := "198.41.0.4"; root_server_port := 53 |}.

Definition example_server : Server :=
  {| _handle_flag := true; socket_open := true; _cacher := Some example_cache;
     _resolver := example_resolver |}.

(** One second, and one day, in microseconds. *)
Definition second : Z := 1000000.
Definition day : Z := 86400 * second.

(** A name that starts with a pointer to offset 2, beyond the pointer
    itself, where the label "a" and the terminator follow. *)
Definition forward_pointer_name : list byte := [xc0; x02; x01; x61; x00].

(** id 0x1234, RD, one question: "a.bc", type 15 (MX), class 3. *)
Definition mx_query : list byte :=
  [x12; x34; x01; x00; x00; x01; x00; x00; x00; x00; x00; x00;
   x01; x61; x02; x62; x63; x00; x00; x0f; x00; x03].

(** A response with one answer: "a", type A, class 3, TTL 60, rdlength 2,
    rdata 01 02. *)
Definition short_a_response : list byte :=
  [x12; x34; x81; x00; x00; x00; x00; x01; x00; x00; x00; x00;
   x01; x61; x00; x00; x01; x00; x03; x00; x00; x00; x3c; x00; x02;
   x01; x02].



(** A referral: no answer, authority "com" NS "ns" (TTL 172800), additional
    "ns" A 1.2.3.4. *)
Definition referral : list byte :=
  [x12; x34; x80; x00; x00; x00; x00; x00; x00; x01; x00; x01;
   x03; x63; x6f; x6d; x00; x00; x02; x00; x01; x00; x02; xa3; x00; x00; x04;
   x02; x6e; x73; x00;
   x02; x6e; x73; x00; x00; x01; x00; x01; x00; x02; xa3; x00; x00; x04;
   x01; x02; x03; x04].

(** An upstream in which every server answers every query with that
    referral: the glue sends the resolver to 1.2.3.4, which answers the
    same. *)
Definition self_referral : network := fun _ _ _ => Done referral.

(** A response with one answer, and an upstream that gives it at once. *)
Definition a_response : list byte :=
  [x12; x34; x81; x00; x00; x00; x00; x01; x00; x00; x00; x00;
   x01; x61; x00; x00; x01; x00; x01; x00; x00; x00; x3c; x00; x04;
   x5d; xb8; xd8; x22].

Definition answering : network := fun _ _ _ => Done a_response.

(** A response with an empty header: no answer, no authority. *)
Definition empty_response : list byte :=
  [x12; x34; x81; x00; x00; x00; x00; x00; x00; x00; x00; x00].

Definition silent : network := fun _ _ _ => Done empty_response.

(** [resume_at pos r]: the outcome [r] with the cursor replaced by [pos]. *)
Definition resume_at {T} (pos : nat) (r : outcome (T * nat)) : outcome (T * nat) :=
  '(x, _) ← r; mret (x, pos).

(** The 14-bit target of the pointer made of the octets [b] and [lo]. *)
Definition pointer_target (b lo : byte) : nat :=
  N.to_nat (N.lor (N.shiftl (N.land (Byte.to_N b) 0x3F) 8) (Byte.to_N lo)).

Definition is_pointer (b : byte) : bool :=
  (N.land (Byte.to_N b) 0xC0 =? 0xC0)%N.

(** A label of 1 to 63 ASCII characters. *)
Definition ascii_label (label : string) : bool :=
  (1 <=? String.length label) && (String.length label <=? 63)
  && forallb (fun c => (N_of_ascii c <? 128)%N) (list_ascii_of_string label).


(** The wire form of a sequence of labels: each label behind its length
    octet. *)
Definition wire_labels (labels : list string) : list byte :=
  flat_map (fun label => chr (Z.of_nat (String.length label)) :: encode label)
    labels.

(** ** pack_data.py: resource data and responses *)

(** [s.split(":")]. *)
Fixpoint split_colon (s : string) : list string :=
  match s with
  | EmptyString => [""]
  | String c s' =>
      if Ascii.eqb c ":" then "" :: split_colon s'
      else match split_colon s' with
           | h :: t => String c h :: t
           | [] => [String c ""]
           end
  end.

(** The characters [int] strips as white space, among the code points
    0..255: TAB..CR, FS..US, SPACE, NEL, NBSP. *)
Definition is_space (c : ascii) : bool :=
  let n := N_of_ascii c in
  ((9 <=? n) && (n <=? 13) || (28 <=? n) && (n <=? 32) || (n =? 133)
   || (n =? 160))%N.

Fixpoint lstrip (cs : list ascii) : list ascii :=
  match cs with
  | c :: cs' => if is_space c then lstrip cs' else cs
  | [] => []
  end.

Definition strip (cs : list ascii) : list ascii :=
  rev (lstrip (rev (lstrip cs))).

(** The value of a digit in base 10 or 16. *)
Definition digit_of (base : Z) (c : ascii) : option Z :=
  let n := Z.of_N (N_of_ascii c) in
  if ((48 <=? n) && (n <=? 57))%Z then Some (n - 48)%Z
  else if ((base =? 16) && (97 <=? n) && (n <=? 102))%Z then Some (n - 87)%Z
  else if ((base =? 16) && (65 <=? n) && (n <=? 70))%Z then Some (n - 55)%Z
  else None.

(** Digits with single underscores between them; [prev] tells whether the
    character before was an underscore.  Returns the value and the number
    of digits. *)
Fixpoint digits (base : Z) (cs : list ascii) (prev : bool) (acc : Z)
    (count : nat) : option (Z * nat) :=
  match cs with
  | [] => if prev then None else Some (acc, count)
  | c :: cs' =>
      if Ascii.eqb c "_" then
        if prev then None else digits base cs' true acc count
      else
        match digit_of base c with
        | Some d => digits base cs' false (acc * base + d)%Z (S count)
        | None => None
        end
  end.

(** [int(s)] and [int(s, 16)] on a [str]: white space around, a sign, for
    base 16 a prefix [0x] or [0X] (behind which one underscore may stand),
    then the digits; anything else is [ValueError], as is a decimal of more
    than 4300 digits (the interpreter's default limit). *)
Definition int (base : Z) (s : string) : option Z :=
  let cs := strip (list_ascii_of_string s) in
  let '(sign, cs) :=
    match cs with
    | "+"%char :: cs' => (1%Z, cs')
    | "-"%char :: cs' => ((-1)%Z, cs')
    | _ => (1%Z, cs)
    end in
  let cs :=
    match cs with
    | "0"%char :: x :: cs' =>
        if ((base =? 16)%Z && (Ascii.eqb x "x" || Ascii.eqb x "X"))%bool then
          match cs' with
          | "_"%char :: cs'' => cs''
          | _ => cs'
          end
        else cs
    | _ => cs
    end in
  match cs with
  | [] => None
  | c :: _ =>
      if Ascii.eqb c "_" then None
      else
        match digits base cs false 0 0 with
        | Some (v, count) =>
            if ((base =? 10)%Z && (4300 <? count))%bool then None
            else Some (sign * v)%Z
        | None => None
        end
  end.

(** [list(map(f, parts))] for an [f] that returns or raises. *)
Fixpoint map_outcome {T U} (f : T -> outcome U) (l : list T) : outcome (list U) :=
  match l with
  | [] => Done []
  | x :: l' => y ← f x; ys ← map_outcome f l'; mret (y :: ys)
  end.

(** [int] with its [ValueError]; the reason is not kept. *)
Definition int_or_raise (base : Z) (s : string) : outcome Z :=
  match int base s with
  | Some v => Done v
  | None => Raise (ValueError InvalidASCII)
  end.

(** [struct.pack("!I", v)]. *)
Definition pack_I (v : Z) : outcome (list byte) :=
  if ((0 <=? v) && (v <? 4294967296))%Z
  then Done [chr (v / 16777216); chr (v / 65536); chr (v / 256); chr v]
  else Raise StructError.

Definition encode_record_data (record_type length : Z) (data : string)
    : outcome (list byte) :=
  if (record_type =? DNSRecordType.value DNSRecordType.A)%Z then
    octets ← map_outcome (int_or_raise 10) (split_dot data);
    match octets with
    | [_; _; _; _] =>
        l ← pack_H length; bs ← pack_all pack_B octets; mret (l ++ bs)
    | _ => Raise StructError
    end
  else if ((record_type =? DNSRecordType.value DNSRecordType.NS)
           || (record_type =? DNSRecordType.value DNSRecordType.PTR))%Z then
    '(encoded_length, encoded_data) ← encode_domain_name data;
    l ← pack_H (Z.of_nat encoded_length);
    mret (l ++ encoded_data)
  else if (record_type =? DNSRecordType.value DNSRecordType.AAAA)%Z then
    hextets ← map_outcome (int_or_raise 16) (split_colon data);
    match hextets with
    | [_; _; _; _; _; _; _; _] =>
        l ← pack_H length; bs ← pack_all pack_H hextets; mret (l ++ bs)
    | _ => Raise StructError
    end
  else Raise (ValueError (UnsupportedRecordType record_type)).

(** The first loop of [build_response_packet]. *)
Fixpoint append_questions (questions : list DNSQuestion) (packet : list byte)
    : outcome (list byte) :=
  match questions with
  | [] => Done packet
  | question :: rest =>
      '(_, domain_bytes) ← encode_domain_name (q_domain question);
      tc ← pack_all pack_H [q_record_type question; q_record_class question];
      append_questions rest (packet ++ (domain_bytes ++ tc))
  end.

(** The second loop of [build_response_packet]. *)
Fixpoint append_answers (answer_records : list DNSResourceRecord)
    (packet : list byte) : outcome (list byte) :=
  match answer_records with
  | [] => Done packet
  | record :: rest =>
      '(_, domain_bytes) ← encode_domain_name (domain record);
      tc ← pack_all pack_H [record_type record; record_class record];
      t ← pack_I (ttl record);
      rdata ← encode_record_data (record_type record) (data_length record)
                (data record);
      append_answers rest (packet ++ (domain_bytes ++ (tc ++ t) ++ rdata))
  end.

Definition build_response_packet (request_header : DNSHeader)
    (questions : list DNSQuestion) (answer_records : list DNSResourceRecord)
    : outcome (list byte) :=
  hdr ← pack_all pack_H
          [packet_id request_header; Z.lor (Z.shiftl 1 15) (Z.shiftl 1 8);
           Z.of_nat (length questions); Z.of_nat (length answer_records);
           0; 0]%Z;
  packet ← append_questions questions hdr;
  append_answers answer_records packet.

(** ** server.py: one datagram *)

(** The [for] loop of [_handle_client]; [clock i] gives the clock when the
    cache is read, and when the answer is stored, for question number
    [i]. *)
Fixpoint process_questions (fuel stack : nat) (cacher : DNSCache)
    (resolver : DNSResolver) (net : network) (clock : nat -> Z * Z) (i : nat)
    (questions : list DNSQuestion) (packet_id : Z)
    (total_a_records : list DNSResourceRecord)
    : DNSCache * outcome (list DNSResourceRecord) :=
  match questions with
  | [] => (cacher, Done total_a_records)
  | question :: rest =>
      match _process_question fuel stack cacher resolver net (fst (clock i))
              (snd (clock i)) question packet_id with
      | (cacher, Done records) =>
          match extend total_a_records records with
          | Done total => process_questions fuel stack cacher resolver net
                            clock (S i) rest packet_id total
          | Raise e => (cacher, Raise e)
          | Diverge => (cacher, Diverge)
          end
      | (cacher, Raise e) => (cacher, Raise e)
      | (cacher, Diverge) => (cacher, Diverge)
      end
  end.

(** [_handle_client]: the cache as it is left, and the datagram that is
    handed to [sendto] for the client; what [sendto] itself does with it is
    outside the model.  Every exception of the [try] block ends in the
    error response. *)
Definition _handle_client (fuel stack : nat) (cacher : DNSCache)
    (resolver : DNSResolver) (net : network) (clock : nat -> Z * Z)
    (request : list byte) : DNSCache * outcome (list byte) :=
  match __post_init__ fuel request with
  | Done request_package =>
      match process_questions fuel stack cacher resolver net clock 0
              (questions request_package)
              (packet_id (header request_package)) [] with
      | (cacher, Done total_a_records) =>
          match build_response_packet (header request_package)
                  (questions request_package) total_a_records with
          | Done response => (cacher, Done response)
          | Raise _ => (cacher, create_error_response (take 2 request))
          | Diverge => (cacher, Diverge)
          end
      | (cacher, Raise _) => (cacher, create_error_response (take 2 request))
      | (cacher, Diverge) => (cacher, Diverge)
      end
  | Raise _ => (cacher, create_error_response (take 2 request))
  | Diverge => (cacher, Diverge)
  end.

(** ** cache_dns.py: entries *)

(** The entry under (domain, type), if there is one. *)
Definition entry_of (self : DNSCache) (domain_name : string) (query_type : Z)
    : option (Z * list DNSResourceRecord) :=
  inner ← cache_data self !! domain_name; inner !! query_type.

(** ** Wire forms used in the statements *)

(** Text whose characters are all below 128. *)
Definition ascii_text (s : string) : bool :=
  forallb (fun c => (N_of_ascii c <? 128)%N) (list_ascii_of_string s).

(** A 16-bit value. *)
Definition is_u16 (v : Z) : Prop := (0 <= v < 65536)%Z.

(** A question the encoder and the decoder agree on: labels of 1 to 63
    ASCII characters, 16-bit type and class. *)
Definition plain_question (q : DNSQuestion) : Prop :=
  Forall (fun l => ascii_label l = true) (split_dot (q_domain q))
  /\ is_u16 (q_record_type q) /\ is_u16 (q_record_class q).

(** The bytes of one question: name, terminator, type, class. *)
Definition wire_question (q : DNSQuestion) : list byte :=
  wire_labels (split_dot (q_domain q))
  ++ x00 :: [chr (q_record_type q / 256); chr (q_record_type q);
             chr (q_record_class q / 256); chr (q_record_class q)].

Definition wire_questions (qs : list DNSQuestion) : list byte :=
  flat_map wire_question qs.

(** Text in which the character [sep] does not occur. *)
Definition free_of (sep : ascii) (s : string) : bool :=
  forallb (fun c => negb (Ascii.eqb c sep)) (list_ascii_of_string s).

(** The [n] integers from [from] on. *)
Fixpoint z_range (n : nat) (from : Z) : list Z :=
  match n with
  | O => []
  | S n' => from :: z_range n' (from + 1)
  end.

(** The 16-bit values, in order. *)
Definition u16s : list Z := z_range (Nat.pow 2 16) 0.

(** No domain of the cache maps to an empty dictionary. *)
Definition domains_nonempty (self : DNSCache) : Prop :=
  forall d inner, cache_data self !! d = Some inner -> inner <> ∅.

(** No entry of the cache holds an empty record list. *)
Definition entries_nonempty (self : DNSCache) : Prop :=
  forall d t cached_time records,
    entry_of self d t = Some (cached_time, records) -> records <> [].

(** ** Upstreams for the resolver *)

(** A referral like [referral] whose glue address is 1.2.3.[k]. *)
Definition referral_to (k : Z) : list byte :=
  [x12; x34; x80; x00; x00; x00; x00; x00; x00; x01; x00; x01;
   x03; x63; x6f; x6d; x00; x00; x02; x00; x01; x00; x02; xa3; x00; x00; x04;
   x02; x6e; x73; x00;
   x02; x6e; x73; x00; x00; x01; x00; x01; x00; x02; xa3; x00; x00; x04;
   x01; x02; x03; chr k].

(** The last octet of a dotted address. *)
Definition hop_of (ip : string) : Z :=
  match split_dot ip with
  | [_; _; _; d] => default 0%Z (int 10 d)
  | _ => 0%Z
  end.

(** A chain of servers: 1.2.3.k refers to 1.2.3.(k+1) as long as k < 20,
    and 1.2.3.20 answers. *)
Definition chain : network := fun ip _ _ =>
  if (hop_of ip <? 20)%Z then Done (referral_to (hop_of ip + 1))
  else Done a_response.

Definition chain_resolver : DNSResolver :=
  {| request_size := 512; root_server_ip := "1.2.3.0"; root_server_port := 53 |}.

(** A response with one answer whose name is a pointer to itself (offset
    12), and an upstream that gives it. *)
Definition looping_response : list byte :=
  [x12; x34; x81; x00; x00; x00; x00; x01; x00; x00; x00; x00;
   xc0; x0c; x00; x01; x00; x01; x00; x00; x00; x3c; x00; x04;
   x01; x02; x03; x04].

Definition looping : network := fun _ _ _ => Done looping_response.


(** * Properties *)

(** ** A larger budget changes no result *)

Lemma bind_more {T U} (m m' : outcome T) (f f' : T -> outcome U) :
  (m <> Diverge -> m' = m) ->
  (forall x, f x <> Diverge -> f' x = f x) ->
  m ≫= f <> Diverge ->
  m' ≫= f' = m ≫= f.
Proof.
  intros Hm Hf H. destruct m as [x| |]; [| |done].
  - rewrite Hm by done. simpl in *. auto.
  - by rewrite Hm.
Qed.

Lemma read_loop_step (fuel : nat) (raw : list byte) (current_pos : nat)
    (compression_offset : option nat) (name_parts : list (list byte)) :
  read_loop (S fuel) raw current_pos compression_offset name_parts
  = match raw !! current_pos with
    | None => Raise IndexError
    | Some b =>
        if is_pointer b then
          match raw !! (current_pos + 1) with
          | None => Raise IndexError
          | Some lo =>
              if length raw <=? pointer_target b lo
              then Raise (ValueError InvalidCompressionOffset)
              else read_loop fuel raw (pointer_target b lo)
                     (Some (default (current_pos + 2) compression_offset))
                     name_parts
          end
        else if (63 <? Byte.to_N b)%N then
          Raise (ValueError (InvalidLabelLength (Byte.to_N b)))
        else if (Byte.to_N b =? 0)%N then
          Done (name_parts, default (current_pos + 1) compression_offset)
        else if length raw <? current_pos + 1 + N.to_nat (Byte.to_N b)
        then Raise (ValueError LabelExceedsPacketBounds)
        else read_loop fuel raw (current_pos + 1 + N.to_nat (Byte.to_N b))
               compression_offset
               (name_parts ++ [slice raw (current_pos + 1)
                                 (current_pos + 1 + N.to_nat (Byte.to_N b))])
    end.
Proof. by destruct compression_offset. Qed.

Lemma read_loop_more_fuel (fuel : nat) (raw : list byte) :
  forall (current_pos : nat) (compression_offset : option nat)
         (name_parts : list (list byte)),
    read_loop fuel raw current_pos compression_offset name_parts <> Diverge ->
    read_loop (S fuel) raw current_pos compression_offset name_parts
    = read_loop fuel raw current_pos compression_offset name_parts.
Proof.
  induction fuel as [|fuel IH]; intros current_pos compression_offset name_parts H;
    [done|].
  rewrite (read_loop_step (S fuel)). rewrite (read_loop_step fuel) in H |- *.
  destruct (raw !! current_pos) as [b|]; [|done].
  destruct (is_pointer b).
  - destruct (raw !! (current_pos + 1)) as [lo|]; [|done].
    destruct (length raw <=? _); [done|]. by apply IH.
  - destruct (63 <? Byte.to_N b)%N; [done|].
    destruct (Byte.to_N b =? 0)%N; [done|].
    destruct (length raw <? _); [done|]. by apply IH.
Qed.

Lemma _read_domain_name_more_fuel (fuel : nat) (raw : list byte) (pos : nat) :
  _read_domain_name fuel raw pos <> Diverge ->
  _read_domain_name (S fuel) raw pos = _read_domain_name fuel raw pos.
Proof.
  unfold _read_domain_name. apply bind_more; [|done].
  apply read_loop_more_fuel.
Qed.

Lemma questions_loop_more_fuel (fuel : nat) (raw : list byte) :
  forall (count pos : nat) (acc : list DNSQuestion),
    questions_loop fuel raw count pos acc <> Diverge ->
    questions_loop (S fuel) raw count pos acc
    = questions_loop fuel raw count pos acc.
Proof.
  induction count as [|count IH]; intros pos acc; [done|]. simpl.
  apply bind_more; [apply _read_domain_name_more_fuel|].
  intros [name p1]. apply bind_more; [done|].
  intros [t c]. apply IH.
Qed.

Lemma _parse_record_data_more_fuel (fuel : nat) (raw : list byte) (pos : nat)
    (t dl : Z) :
  _parse_record_data fuel raw pos t dl <> Diverge ->
  _parse_record_data (S fuel) raw pos t dl = _parse_record_data fuel raw pos t dl.
Proof.
  unfold _parse_record_data.
  destruct (t =? _)%Z; [done|]. destruct (_ || _); [|done].
  apply _read_domain_name_more_fuel.
Qed.

Lemma _parse_record_section_more_fuel (fuel : nat) (raw : list byte) :
  forall (count pos : nat) (records : list DNSResourceRecord),
    _parse_record_section fuel raw count pos records <> Diverge ->
    _parse_record_section (S fuel) raw count pos records
    = _parse_record_section fuel raw count pos records.
Proof.
  induction count as [|count IH]; intros pos records; [done|]. simpl.
  apply bind_more; [apply _read_domain_name_more_fuel|].
  intros [name p1]. apply bind_more; [done|].
  intros [[[t c] tl] dl]. apply bind_more; [apply _parse_record_data_more_fuel|].
  intros [d p2]. apply IH.
Qed.

(** A packet that decodes, or fails, within some budget does the same
    within every larger one. *)
Lemma __post_init___more_fuel (fuel : nat) (raw : list byte) :
  __post_init__ fuel raw <> Diverge ->
  __post_init__ (S fuel) raw = __post_init__ fuel raw.
Proof.
  unfold __post_init__. apply bind_more; [done|].
  intros [h p0]. apply bind_more; [apply questions_loop_more_fuel|].
  intros [qs p1]. apply bind_more; [apply _parse_record_section_more_fuel|].
  intros [ans p2]. apply bind_more; [apply _parse_record_section_more_fuel|].
  intros [auth p3]. apply bind_more; [apply _parse_record_section_more_fuel|].
  by intros [add p4].
Qed.

Lemma authority_loop_more
    (resolve resolve' : list byte -> option string -> Z -> outcome (option DNSPacket))
    (dns_query : list byte) (response_packet : DNSPacket) :
  (forall q ip port, resolve q ip port <> Diverge ->
                     resolve' q ip port = resolve q ip port) ->
  forall auths,
    authority_loop resolve dns_query response_packet auths <> Diverge ->
    authority_loop resolve' dns_query response_packet auths
    = authority_loop resolve dns_query response_packet auths.
Proof.
  intros Hres. induction auths as [|auth_record rest IH]; [done|]. simpl.
  destruct (List.find _ _); [apply Hres|].
  apply bind_more.
  - unfold _resolve_name_to_ips. apply bind_more; [done|].
    intros query. apply bind_more; [apply Hres | done].
  - intros [[|ip ips]|]; auto.
Qed.

(** A resolution that returns, or fails, within some budget of loop
    iterations does the same within every larger one. *)
Lemma recursive_resolve_more_fuel (self : DNSResolver) (net : network)
    (fuel : nat) :
  forall (stack : nat) (dns_query : list byte) (ip : option string) (port : Z),
    recursive_resolve fuel stack self net dns_query ip port <> Diverge ->
    recursive_resolve (S fuel) stack self net dns_query ip port
    = recursive_resolve fuel stack self net dns_query ip port.
Proof.
  induction stack as [|stack IH]; intros dns_query ip port; [done|].
  cbn [recursive_resolve].
  apply bind_more; [done|]. intros response.
  apply bind_more; [apply __post_init___more_fuel|]. intros pkt.
  destruct (0 <? answers_count _)%Z; [done|].
  destruct (0 <? authority_count _)%Z; [|done].
  apply authority_loop_more. apply IH.
Qed.

(** ** The error response *)

(** Whatever the id bytes, the body is the ten bytes 84 00 00 .. 00. *)
Lemma create_error_response_bytes (request_id : list byte) :
  create_error_response request_id
  = Done (request_id ++ [x84; x00; x00; x00; x00; x00; x00; x00; x00; x00]).
Proof. reflexivity. Qed.

(** C1: on the malformed request AB CD 00 00 the error response is the id
    AB CD followed by the flags word 0x8400 (QR and bit 10, RCODE 0) and
    four zero counts; the flags word is not 0x8004. *)
Theorem create_error_response_malformed_request :
  create_error_response (take 2 [xab; xcd; x00; x00])
  = Done [xab; xcd; x84; x00; x00; x00; x00; x00; x00; x00; x00; x00]
  /\ be_uint [x84; x00] = 0x8400%Z
  /\ be_uint [x84; x00] <> 0x8004%Z.
Proof. repeat split. discriminate. Qed.

(** ** The cache *)

Lemma set_cache_data_id (self : DNSCache) :
  set_cache_data self (cache_data self) = self.
Proof. by destruct self. Qed.

(** C9: adding records under a (domain, type) that is already in the cache
    leaves the cache as it was: the stored timestamp and records stay, and
    so does every other slot of the two-level map. *)
Theorem add_records_existing (self : DNSCache) (now : Z) (domain_name : string)
    (query_type : Z) (records : list DNSResourceRecord)
    (inner : gmap Z (Z * list DNSResourceRecord))
    (entry : Z * list DNSResourceRecord) :
  cache_data self !! domain_name = Some inner ->
  inner !! query_type = Some entry ->
  add_records self now domain_name query_type records = self.
Proof.
  intros Hd Ht. unfold add_records.
  rewrite Hd. rewrite Hd. rewrite Ht. apply set_cache_data_id.
Qed.

Lemma add_records_existing_witness :
  add_records example_cache day "example.com" 1 [second_record] = example_cache.
Proof.
  apply (add_records_existing example_cache day "example.com" 1 [second_record]
           {[ 1%Z := (0%Z, [example_record]) ]} (0%Z, [example_record]));
    reflexivity.
Defined.

(** A first insertion stores the records with the clock of that moment. *)
Lemma add_records_fresh (self : DNSCache) (now : Z) (domain_name : string)
    (query_type : Z) (records : list DNSResourceRecord) :
  (forall inner, cache_data self !! domain_name = Some inner ->
                 inner !! query_type = None) ->
  exists inner,
    cache_data (add_records self now domain_name query_type records)
      !! domain_name = Some inner
    /\ inner !! query_type = Some (now, records).
Proof.
  intros Hfree. unfold add_records.
  destruct (cache_data self !! domain_name) as [inner|] eqn:Hd.
  - rewrite Hd. rewrite (Hfree inner eq_refl). simpl.
    eexists. rewrite lookup_insert_eq. split; [done|]. by rewrite lookup_insert_eq.
  - rewrite lookup_insert_eq. rewrite lookup_empty. simpl.
    eexists. rewrite lookup_insert_eq. split; [done|]. by rewrite lookup_insert_eq.
Qed.

(** Within the first day after the insertion the elapsed seconds are what
    [.seconds] gives. *)
Lemma timedelta_seconds_within_a_day (now cached_time : Z) :
  (0 <= now - cached_time < day)%Z ->
  timedelta_seconds now cached_time = ((now - cached_time) / second)%Z.
Proof.
  intros H. unfold timedelta_seconds, day, second in *.
  apply Z.mod_small. split.
  - apply Z.div_pos; lia.
  - apply Z.div_lt_upper_bound; lia.
Qed.

Lemma _records_expired_false (now cached_time : Z) (records : list DNSResourceRecord) :
  _records_expired now (cached_time, records) = false <->
  Forall (fun r => (timedelta_seconds now cached_time < ttl r)%Z) records.
Proof.
  unfold _records_expired. induction records as [|r rs IH]; simpl.
  - split; [constructor | done].
  - rewrite orb_false_iff, IH, Z.leb_gt. split.
    + intros [? ?]. by constructor.
    + intros H. by inversion H.
Qed.

(** While less than a day has passed and every TTL is above the elapsed
    seconds, [get_records] gives the records and leaves the cache alone. *)
Lemma get_records_fresh_within_a_day (self : DNSCache) (now cached_time : Z)
    (domain_name : string) (query_type : Z) (records : list DNSResourceRecord)
    (inner : gmap Z (Z * list DNSResourceRecord)) :
  cache_data self !! domain_name = Some inner ->
  inner !! query_type = Some (cached_time, records) ->
  (0 <= now - cached_time < day)%Z ->
  Forall (fun r => ((now - cached_time) / second < ttl r)%Z) records ->
  get_records self now domain_name query_type = (self, Some records).
Proof.
  intros Hd Ht Hday Hfresh. unfold get_records. rewrite Hd, Ht.
  assert (_records_expired now (cached_time, records) = false) as ->; [|done].
  apply _records_expired_false.
  by rewrite timedelta_seconds_within_a_day.
Qed.

(** Within the first day, once the elapsed seconds reach some TTL,
    [get_records] misses and the (domain, type) slot is gone. *)
Lemma get_records_stale_within_a_day (self : DNSCache) (now cached_time : Z)
    (domain_name : string) (query_type : Z) (records : list DNSResourceRecord)
    (inner : gmap Z (Z * list DNSResourceRecord)) :
  cache_data self !! domain_name = Some inner ->
  inner !! query_type = Some (cached_time, records) ->
  (0 <= now - cached_time < day)%Z ->
  Exists (fun r => (ttl r <= (now - cached_time) / second)%Z) records ->
  snd (get_records self now domain_name query_type) = None
  /\ forall inner',
       cache_data (fst (get_records self now domain_name query_type))
         !! domain_name = Some inner' ->
       inner' !! query_type = None.
Proof.
  intros Hd Ht Hday Hstale. unfold get_records. rewrite Hd, Ht.
  assert (_records_expired now (cached_time, records) = true) as ->.
  { destruct (_records_expired now (cached_time, records)) eqn:E; [done|].
    apply _records_expired_false in E.
    rewrite timedelta_seconds_within_a_day in E by done.
    apply Exists_exists in Hstale as (r & Hin & Hr).
    rewrite Forall_forall in E. specialize (E r Hin). lia. }
  simpl. split; [done|]. intros inner'.
  unfold _remove_expired_records. rewrite Hd.
  destruct (decide (delete query_type inner = ∅)); simpl.
  - by rewrite lookup_delete_eq.
  - rewrite lookup_insert_eq. intros [= <-]. apply lookup_delete_eq.
Qed.

(** C6: an entry stored at time 0 with TTL 3600 is still served one day and
    one second later, and stays in the map: only the seconds component of
    the elapsed time is compared with the TTL. *)
Theorem get_records_after_one_day :
  (ttl example_record <= (day + second - 0) / second)%Z
  /\ timedelta_seconds (day + second) 0 = 1%Z
  /\ get_records example_cache (day + second) "example.com" 1
     = (example_cache, Some [example_record]).
Proof. repeat split. vm_compute. discriminate. Qed.

(** ** A question served from the cache *)

(** On a cache hit [_process_question] indexes the record list with 1: it
    hands back the second record alone, or raises when there is none. *)
Lemma _process_question_hit (fuel stack : nat) (cacher cacher' : DNSCache)
    (resolver : DNSResolver) (net : network) (now now' : Z)
    (question : DNSQuestion) (packet_id : Z)
    (cached_records : list DNSResourceRecord) :
  get_records cacher now (q_domain question) (q_record_type question)
  = (cacher', Some cached_records) ->
  _process_question fuel stack cacher resolver net now now' question packet_id
  = (cacher',
     match cached_records !! 1 with
     | Some r => Done (RRecord r)
     | None => Raise IndexError
     end).
Proof.
  intros Hget. unfold _process_question. rewrite Hget.
  by destruct (cached_records !! 1).
Qed.

(** A single record is not a list: the server's accumulation rejects it. *)
Lemma extend_record (total : list DNSResourceRecord) (r : DNSResourceRecord) :
  extend total (RRecord r) = Raise TypeError.
Proof. reflexivity. Qed.

(** C3: with ("example.com", A) fresh in the cache (one record, stored a
    second ago), handling the question for it raises [IndexError] instead
    of yielding the cached record list; with two cached records it yields
    the second record alone, which the answer list cannot take in. *)
Theorem process_question_cached_entry :
  get_records example_cache second "example.com" 1
  = (example_cache, Some [example_record])
  /\ _process_question 5 500 example_cache example_resolver silent second
       second example_question 0x1234
     = (example_cache, Raise IndexError)
  /\ _process_question 5 500 two_record_cache example_resolver silent second
       second example_question 0x1234
     = (two_record_cache, Done (RRecord second_record))
  /\ extend [] (RRecord second_record) = Raise TypeError.
Proof. repeat split. Qed.

(** ** Persisting the cache *)

(** [save_cache] reads [self.buffer], which no [DNSCache] has: it raises
    before anything is opened or written. *)
Lemma save_cache_raises (self : DNSCache) (fs : filesystem) :
  save_cache self fs = (fs, Raise (AttributeError "buffer")).
Proof. reflexivity. Qed.

(** The server's [_close] asks the cache for [save], which is not one of
    its methods. *)
Lemma _close_raises (self : Server) (cacher : DNSCache) (fs : filesystem) :
  _cacher self = Some cacher ->
  snd (_close self fs) = Raise (AttributeError "save")
  /\ snd (fst (_close self fs)) = fs.
Proof. intros H. unfold _close. simpl. rewrite H. by split. Qed.

(** C4: on the sample cache persisting writes nothing: [save_cache] raises
    [AttributeError] for the field [buffer] before any file is opened, the
    error comes out of [shutdown] unchanged, and the server's [_close]
    raises [AttributeError] for the method [save]; the file system is as
    before. *)
Theorem persist_error_reaches_caller :
  save_cache example_cache ∅ = (∅, Raise (AttributeError "buffer"))
  /\ shutdown example_cache ∅ = (∅, Raise (AttributeError "buffer"))
  /\ snd (_close example_server ∅) = Raise (AttributeError "save")
  /\ snd (fst (_close example_server ∅)) = ∅.
Proof. repeat split. Qed.

(** ** Reading a name: compression pointers *)

Lemma resume_at_resume_at {T} (p q : nat) (r : outcome (T * nat)) :
  resume_at p (resume_at q r) = resume_at p r.
Proof. by destruct r as [[x c]| |]. Qed.

(** Once a pointer has been taken the cursor to resume at is fixed; the
    labels read do not depend on it. *)
Lemma read_loop_resume (fuel : nat) (raw : list byte) :
  forall (current_pos c : nat) (name_parts : list (list byte)),
    read_loop fuel raw current_pos (Some c) name_parts
    = resume_at c (read_loop fuel raw current_pos None name_parts).
Proof.
  induction fuel as [|fuel IH]; intros current_pos c name_parts; [done|].
  simpl. destruct (raw !! current_pos) as [b|]; [|done].
  destruct (N.land (Byte.to_N b) 192 =? 192)%N.
  - destruct (raw !! (current_pos + 1)) as [lo|]; [|done].
    destruct (length raw <=? _); [done|].
    rewrite (IH _ c), (IH _ (current_pos + 2)).
    by rewrite resume_at_resume_at.
  - destruct (63 <? Byte.to_N b)%N; [done|].
    destruct (Byte.to_N b =? 0)%N; [done|].
    destruct (length raw <? _); [done|]. apply IH.
Qed.


(** A pointer to itself is inside the packet as well: the loop follows it
    for as long as it is allowed to run. *)
Lemma self_pointer_never_returns (fuel : nat) :
  _read_domain_name fuel [xc0; x00] 0 = Diverge.
Proof.
  unfold _read_domain_name.
  assert (forall c parts, read_loop fuel [xc0; x00] 0 c parts = Diverge) as ->; [|done].
  induction fuel as [|fuel IH]; intros c parts; [done|].
  simpl. apply IH.
Qed.

(** ** Names: encoding, then decoding *)

Lemma split_dot_nonempty (s : string) : split_dot s <> [].
Proof.
  induction s as [|c s IH]; simpl; [done|].
  destruct (Ascii.eqb c "."); [done|]. by destruct (split_dot s).
Qed.

Lemma join_cons (c : ascii) (h : string) (t : list string) :
  join "." (String c h :: t) = String c (join "." (h :: t)).
Proof. by destruct t. Qed.

Lemma join_split_dot (s : string) : join "." (split_dot s) = s.
Proof.
  induction s as [|c s IH]; [done|]. simpl.
  destruct (Ascii.eqb c ".") eqn:E.
  - apply Ascii.eqb_eq in E as ->.
    pose proof (split_dot_nonempty s) as Hne.
    destruct (split_dot s) as [|h t] eqn:Hs; [done|].
    unfold join in *. simpl in *. by rewrite IH.
  - pose proof (split_dot_nonempty s) as Hne.
    destruct (split_dot s) as [|h t] eqn:Hs; [done|].
    by rewrite join_cons, IH.
Qed.

Lemma to_N_chr (n : nat) : n < 256 -> Byte.to_N (chr (Z.of_nat n)) = N.of_nat n.
Proof.
  intros Hn. unfold chr. rewrite Z.mod_small by lia.
  destruct (Byte.of_N (Z.to_N (Z.of_nat n))) as [b|] eqn:E.
  - apply Byte.to_of_N in E. lia.
  - apply Byte.of_N_None_iff in E. lia.
Qed.

Lemma to_N_byte_of_ascii (c : ascii) : Byte.to_N (byte_of_ascii c) = N_of_ascii c.
Proof. apply Byte.to_of_N. symmetry. apply byte_of_ascii_via_N. Qed.

Lemma ascii_label_spec (label : string) :
  ascii_label label = true ->
  1 <= String.length label <= 63
  /\ forallb (fun c => (N_of_ascii c <? 128)%N) (list_ascii_of_string label) = true.
Proof.
  unfold ascii_label. rewrite !andb_true_iff, !Nat.leb_le. tauto.
Qed.

(** On ASCII text the UTF-8 encoding is one byte per character. *)
Lemma encode_ascii (s : string) :
  forallb (fun c => (N_of_ascii c <? 128)%N) (list_ascii_of_string s) = true ->
  encode s = list_byte_of_string s.
Proof.
  induction s as [|c s IH]; [done|]. simpl. rewrite andb_true_iff.
  intros [Hc Hs]. unfold encode_char. rewrite Hc. simpl.
  unfold list_byte_of_string in *. simpl. by rewrite IH.
Qed.

Lemma length_list_byte_of_string (s : string) :
  length (list_byte_of_string s) = String.length s.
Proof.
  unfold list_byte_of_string. rewrite length_map.
  induction s as [|c s IH]; simpl; congruence.
Qed.

Lemma decode_ascii_encode (s : string) :
  forallb (fun c => (N_of_ascii c <? 128)%N) (list_ascii_of_string s) = true ->
  decode_ascii (encode s) = Some s.
Proof.
  intros Hs. rewrite (encode_ascii s Hs). unfold decode_ascii.
  assert (forallb (fun b => (Byte.to_N b <? 128)%N) (list_byte_of_string s) = true)
    as ->.
  { unfold list_byte_of_string. clear -Hs.
    induction (list_ascii_of_string s) as [|c l IH]; [done|].
    simpl in *. apply andb_true_iff in Hs as [Hc Hl].
    by rewrite to_N_byte_of_ascii, Hc, IH. }
  by rewrite string_of_list_byte_of_string.
Qed.

Lemma decode_all_encode (labels : list string) :
  Forall (fun l => ascii_label l = true) labels ->
  decode_all (map encode labels) = Some labels.
Proof.
  induction 1 as [|l ls Hl _ IH]; [done|]. simpl.
  apply ascii_label_spec in Hl as [_ Hl].
  by rewrite (decode_ascii_encode l Hl), IH.
Qed.

(** The encoder's loop emits the wire form of the labels. *)
Lemma encode_labels_wire (labels : list string) :
  Forall (fun l => ascii_label l = true) labels ->
  forall (total_length : nat) (encoded : list byte),
    encode_labels labels total_length encoded
    = Done (total_length + length (wire_labels labels),
            encoded ++ wire_labels labels).
Proof.
  induction 1 as [|l ls Hl _ IH]; intros total_length encoded; simpl.
  - by rewrite Nat.add_0_r, app_nil_r.
  - apply ascii_label_spec in Hl as [[Hlo Hhi] Hl].
    unfold encode_label, pack_B.
    assert (((0 <=? Z.of_nat (String.length l)) && (Z.of_nat (String.length l) <? 256))%Z
            = true) as ->.
    { apply andb_true_iff. split; [apply Z.leb_le | apply Z.ltb_lt]; lia. }
    simpl. rewrite IH. unfold pack_s.
    rewrite (encode_ascii l Hl).
    rewrite firstn_all2 by (rewrite length_list_byte_of_string; lia).
    rewrite length_list_byte_of_string, Nat.sub_diag. simpl.
    rewrite app_nil_r, length_app, length_list_byte_of_string.
    f_equal. f_equal; [lia|]. by rewrite <- app_assoc.
Qed.

Lemma land_label_length (n : N) : (n <= 63)%N -> (N.land n 192 =? 192)%N = false.
Proof.
  intros Hn. apply N.eqb_neq. pose proof (N.land_le_l n 192). lia.
Qed.

(** The decoder's loop reads the wire form of the labels back, one
    iteration per label and one for the terminator. *)
Lemma read_loop_wire (labels : list string) (rest : list byte) :
  Forall (fun l => ascii_label l = true) labels ->
  forall (fuel : nat) (pre : list byte) (name_parts : list (list byte)),
    length labels < fuel ->
    read_loop fuel (pre ++ wire_labels labels ++ x00 :: rest) (length pre)
      None name_parts
    = Done (name_parts ++ map encode labels,
            length pre + length (wire_labels labels) + 1).
Proof.
  induction 1 as [|l ls Hl _ IH]; intros fuel pre name_parts Hfuel;
    (destruct fuel as [|fuel]; [simpl in Hfuel; lia|]).
  - simpl. rewrite list_lookup_middle by done. simpl.
    by rewrite app_nil_r, Nat.add_0_r.
  - pose proof Hl as Hl'. apply ascii_label_spec in Hl' as [[Hlo Hhi] Hasc].
    change (wire_labels (l :: ls))
      with ((chr (Z.of_nat (String.length l)) :: encode l) ++ wire_labels ls).
    simpl read_loop. rewrite <- app_assoc. simpl app.
    rewrite list_lookup_middle by done.
    rewrite to_N_chr by lia.
    rewrite land_label_length by lia.
    assert ((63 <? N.of_nat (String.length l))%N = false) as ->
      by (apply N.ltb_ge; lia).
    assert ((N.of_nat (String.length l) =? 0)%N = false) as ->
      by (apply N.eqb_neq; lia).
    rewrite Nat2N.id.
    assert (length (encode l) = String.length l) as Hlen
      by (rewrite (encode_ascii l Hasc); apply length_list_byte_of_string).
    assert (length pre + 1 + String.length l
            = length (pre ++ chr (Z.of_nat (String.length l)) :: encode l)) as Hend
      by (rewrite length_app; simpl; lia).
    assert (pre ++ chr (Z.of_nat (String.length l))
                  :: encode l ++ wire_labels ls ++ x00 :: rest
            = (pre ++ chr (Z.of_nat (String.length l)) :: encode l)
                ++ wire_labels ls ++ x00 :: rest) as Hraw
      by (by rewrite <- app_assoc).
    assert (slice (pre ++ chr (Z.of_nat (String.length l))
                        :: encode l ++ wire_labels ls ++ x00 :: rest)
              (length pre + 1) (length pre + 1 + String.length l)
            = encode l) as ->.
    { unfold slice.
      replace (length pre + 1 + String.length l - (length pre + 1))
        with (length (encode l)) by lia.
      replace (pre ++ chr (Z.of_nat (String.length l))
                    :: encode l ++ wire_labels ls ++ x00 :: rest)
        with ((pre ++ [chr (Z.of_nat (String.length l))])
                ++ encode l ++ wire_labels ls ++ x00 :: rest)
        by (by rewrite <- app_assoc).
      rewrite drop_app_length' by (rewrite length_app; simpl; lia).
      apply take_app_length. }
    assert ((length (pre ++ chr (Z.of_nat (String.length l))
                       :: encode l ++ wire_labels ls ++ x00 :: rest)
             <? length pre + 1 + String.length l) = false) as ->.
    { apply Nat.ltb_ge. rewrite Hraw, length_app, <- Hend. lia. }
    rewrite Hraw, Hend, IH by (simpl in Hfuel; lia).
    f_equal. f_equal.
    + by rewrite <- app_assoc.
    + rewrite !length_app. simpl. rewrite length_app. lia.
Qed.

(** C10: a name whose labels each have 1 to 63 ASCII characters is encoded
    without error, and reading a name at the start of a packet that begins
    with the encoding gives the name back, with the cursor behind the
    encoding; one loop iteration per label and one more suffice. *)
Theorem encode_then_read_domain_name (domain : string) (rest : list byte)
    (fuel : nat) :
  Forall (fun l => ascii_label l = true) (split_dot domain) ->
  length (split_dot domain) < fuel ->
  exists (total_length : nat) (encoded : list byte),
    encode_domain_name domain = Done (total_length, encoded)
    /\ length encoded = total_length
    /\ _read_domain_name fuel (encoded ++ rest) 0 = Done (domain, total_length)
    /\ forall before : list byte,
         _read_domain_name fuel (before ++ encoded ++ rest) (length before)
         = Done (domain, length before + total_length).
Proof.
  intros Hlabels Hfuel. unfold encode_domain_name.
  rewrite (encode_labels_wire _ Hlabels). simpl.
  eexists _, _. split; [reflexivity|].
  assert (forall before : list byte,
    _read_domain_name fuel
      (before ++ (wire_labels (split_dot domain) ++ [x00]) ++ rest)
      (length before)
    = Done (domain, length before + (length (wire_labels (split_dot domain)) + 1)))
    as Hany.
  { intros before. unfold _read_domain_name. rewrite <- app_assoc. simpl app.
    rewrite (read_loop_wire _ rest Hlabels fuel before [] Hfuel). simpl.
    rewrite (decode_all_encode _ Hlabels), join_split_dot.
    by rewrite Nat.add_assoc. }
  split; [|split].
  - rewrite length_app. simpl. lia.
  - apply (Hany []).
  - apply Hany.
Qed.

Lemma encode_then_read_domain_name_witness :
  exists (total_length : nat) (encoded : list byte),
    encode_domain_name "example.com" = Done (total_length, encoded)
    /\ length encoded = total_length
    /\ _read_domain_name 3 (encoded ++ [x00; x01; x00; x01]) 0
       = Done ("example.com", total_length)
    /\ forall before : list byte,
         _read_domain_name 3 (before ++ encoded ++ [x00; x01; x00; x01])
           (length before)
         = Done ("example.com", length before + total_length).
Proof.
  apply (encode_then_read_domain_name "example.com" [x00; x01; x00; x01] 3).
  - repeat constructor.
  - simpl. lia.
Defined.

(** ** Pointers at any place of a name *)





(** ** Record types, classes and rdata lengths *)

Lemma length_slice {T} (l : list T) (a n : nat) :
  length (slice l a (a + n)) = n `min` (length l - a).
Proof.
  unfold slice. rewrite length_take, length_drop.
  by replace (a + n - a) with n by lia.
Qed.









(** ** The resolver: no bound on the descent *)

Lemma recursive_resolve_step (fuel stack : nat) (self : DNSResolver)
    (net : network) (dns_query : list byte) (ip : option string) (port : Z) :
  recursive_resolve fuel (S stack) self net dns_query ip port
  = (response ← _query_dns_server self net dns_query (or_root_ip self ip)
                  (or_root_port self port);
     response_packet ← __post_init__ fuel response;
     if (0 <? answers_count (header response_packet))%Z then
       Done (Some response_packet)
     else if (0 <? authority_count (header response_packet))%Z then
       _handle_authoritative_records (recursive_resolve fuel stack self net)
         dns_query response_packet
     else Done None).
Proof. reflexivity. Qed.

(** The referral decodes as soon as two loop iterations per name are
    allowed, and always to the same packet. *)
Lemma __post_init___referral (fuel : nat) :
  __post_init__ (S (S fuel)) referral = __post_init__ 2 referral.
Proof. vm_compute. reflexivity. Qed.

(** Against the upstream that refers every query to itself the resolver
    calls itself until the recursion limit is reached, whatever the limit
    is: it neither answers nor misses. *)
Lemma recursive_resolve_self_referral (fuel : nat) :
  forall (stack : nat) (dns_query : list byte) (ip : option string) (port : Z),
    recursive_resolve (S (S fuel)) stack example_resolver self_referral
      dns_query ip port
    = Raise RecursionError.
Proof.
  induction stack as [|stack IH]; intros dns_query ip port; [done|].
  rewrite recursive_resolve_step.
  change (_query_dns_server example_resolver self_referral dns_query
            (or_root_ip example_resolver ip) (or_root_port example_resolver port))
    with (Done (T := list byte) referral).
  cbn [mbind outcome_bind]. rewrite __post_init___referral.
  change (recursive_resolve (S (S fuel)) stack example_resolver self_referral
            dns_query (Some "1.2.3.4") 53%Z = Raise RecursionError).
  apply IH.
Qed.

Lemma recursive_resolve_self_referral_no_result (fuel stack : nat)
    (dns_query : list byte) (ip : option string) (port : Z)
    (result : option DNSPacket) :
  recursive_resolve fuel stack example_resolver self_referral dns_query ip port
  <> Done result.
Proof.
  destruct fuel as [|[|fuel]];
    [| |by rewrite recursive_resolve_self_referral].
  - revert dns_query ip port.
    induction stack as [|stack IH]; intros dns_query ip port; [done|].
    rewrite recursive_resolve_step. done.
  - revert dns_query ip port.
    induction stack as [|stack IH]; intros dns_query ip port; [done|].
    rewrite recursive_resolve_step. done.
Qed.

(** The name of the looping response is never read to its end. *)
Lemma __post_init___looping (fuel : nat) :
  __post_init__ fuel looping_response = Diverge.
Proof.
  assert (forall c parts, read_loop fuel looping_response 12 c parts = Diverge)
    as Hloop.
  { induction fuel as [|fuel IH]; intros c parts; [done|].
    rewrite read_loop_step.
    change (looping_response !! 12) with (Some xc0).
    change (is_pointer xc0) with true. cbv iota.
    change (looping_response !! (12 + 1)) with (Some x0c).
    change (pointer_target xc0 x0c) with 12.
    change (length looping_response <=? 12) with false. cbv iota.
    apply IH. }
  unfold __post_init__.
  change (_parse_header looping_response 0)
    with (Done (T := DNSHeader * nat)
            ({| packet_id := 0x1234; flags := 0x8100; questions_count := 0;
                answers_count := 1; authority_count := 0;
                additional_count := 0 |}, 12)).
  cbn [mbind outcome_bind mret outcome_ret]. unfold _parse_questions.
  cbn [questions_count answers_count].
  change (Z.to_nat 0) with 0. change (Z.to_nat 1) with 1.
  cbn [questions_loop mbind outcome_bind mret outcome_ret
       _parse_record_section].
  unfold _read_domain_name. by rewrite Hloop.
Qed.

(** C2, as stated, fails.  Against the upstream that always refers to
    itself the resolver never returns a miss: with room for 500 nested
    calls, or for any other number, it ends in [RecursionError].  Referral
    depth is not capped at 16: a chain of 20 referrals is followed to the
    answer, which takes 21 nested calls.  And resolution need not end at
    all: a response whose name points to itself is decoded for ever. *)
Lemma self_referral_never_returns :
  recursive_resolve 2 500 example_resolver self_referral mx_query None 53
  = Raise RecursionError
  /\ ~ (exists fuel stack result,
          recursive_resolve fuel stack example_resolver self_referral mx_query
            None 53 = Done result)
  /\ (exists answer,
        recursive_resolve 2 21 chain_resolver chain mx_query None 53
        = Done (Some answer))
  /\ recursive_resolve 2 20 chain_resolver chain mx_query None 53
     = Raise RecursionError
  /\ ~ (exists fuel result,
          recursive_resolve fuel 500 example_resolver looping mx_query None 53
          = Done result).
Proof.
  split; [apply recursive_resolve_self_referral|]. split.
  { intros (fuel & stack & result & H).
    by apply recursive_resolve_self_referral_no_result in H. }
  split; [eexists; vm_compute; reflexivity|].
  split; [vm_compute; reflexivity|].
  intros (fuel & result & H). rewrite recursive_resolve_step in H.
  change (_query_dns_server example_resolver looping mx_query
            (or_root_ip example_resolver None) (or_root_port example_resolver 53))
    with (Done (T := list byte) looping_response) in H.
  cbn [mbind outcome_bind] in H. by rewrite __post_init___looping in H.
Qed.

(** C2 (amended): the resolver does not cap referral depth.  A hop whose
    response carries answers returns it; a hop whose response carries
    neither answers nor authority records returns a miss; a hop whose
    response is a referral with a glue A record calls the resolver again on
    the glue address, one level deeper, and nothing but the interpreter's
    recursion limit counts the levels.  Against the upstream that always
    refers to itself resolution therefore ends in [RecursionError], whatever
    the limit, never in a miss; [_process_question] turns that into an
    empty answer list and leaves the cache alone.  A response whose name
    points to itself keeps the decoder, and with it the resolution, running
    for ever. *)
Theorem recursive_resolve_has_no_depth_bound :
  (forall fuel stack self net dns_query ip port response pkt,
      _query_dns_server self net dns_query (or_root_ip self ip)
        (or_root_port self port) = Done response ->
      __post_init__ fuel response = Done pkt ->
      ((0 < answers_count (header pkt))%Z ->
       recursive_resolve fuel (S stack) self net dns_query ip port
       = Done (Some pkt))
      /\ ((answers_count (header pkt) <= 0)%Z ->
          (authority_count (header pkt) <= 0)%Z ->
          recursive_resolve fuel (S stack) self net dns_query ip port
          = Done None)
      /\ (forall glue,
            (answers_count (header pkt) <= 0)%Z ->
            (0 < authority_count (header pkt))%Z ->
            authority_records pkt <> [] ->
            List.find (fun r => (record_type r =? DNSRecordType.value DNSRecordType.A)%Z)
              (additional_records pkt) = Some glue ->
            recursive_resolve fuel (S stack) self net dns_query ip port
            = recursive_resolve fuel stack self net dns_query
                (Some (data glue)) 53))
  /\ (forall fuel stack dns_query ip port,
        2 <= fuel ->
        recursive_resolve fuel stack example_resolver self_referral dns_query
          ip port = Raise RecursionError)
  /\ (forall fuel stack cacher cacher' now now' question packet_id q_request,
        2 <= fuel ->
        get_records cacher now (q_domain question) (q_record_type question)
        = (cacher', None) ->
        build_query_packet packet_id (q_domain question)
          (q_record_type question) (q_record_class question) = Done q_request ->
        _process_question fuel stack cacher example_resolver self_referral
          now now' question packet_id
        = (cacher', Done (RList [])))
  /\ (forall fuel stack self dns_query ip port,
        request_size self >= length looping_response ->
        recursive_resolve fuel (S stack) self looping dns_query ip port
        = Diverge).
Proof.
  split; [|split; [|split]].
  - intros fuel stack self net dns_query ip port response pkt Hq Hp.
    rewrite recursive_resolve_step, Hq. simpl. rewrite Hp. simpl.
    repeat split.
    + intros Han. apply Z.ltb_lt in Han. by rewrite Han.
    + intros Han Hns. apply Z.ltb_ge in Han, Hns. by rewrite Han, Hns.
    + intros glue Han Hns Hauth Hglue.
      apply Z.ltb_ge in Han. apply Z.ltb_lt in Hns. rewrite Han, Hns.
      unfold _handle_authoritative_records.
      destruct (authority_records pkt) as [|auth_record rest]; [done|].
      simpl. by rewrite Hglue.
  - intros fuel stack dns_query ip port Hfuel.
    destruct fuel as [|[|fuel]]; [lia..|].
    apply recursive_resolve_self_referral.
  - intros fuel stack cacher cacher' now now' question packet_id q_request
      Hfuel Hget Hq.
    destruct fuel as [|[|fuel]]; [lia..|].
    unfold _process_question.
    by rewrite Hget, Hq, recursive_resolve_self_referral.
  - intros fuel stack self dns_query ip port Hsize.
    rewrite recursive_resolve_step. unfold _query_dns_server, looping.
    cbn [mbind outcome_bind mret outcome_ret].
    rewrite take_ge by lia. by rewrite __post_init___looping.
Qed.

Lemma recursive_resolve_has_no_depth_bound_witness :
  (exists pkt,
      __post_init__ 2 a_response = Done pkt
      /\ recursive_resolve 2 1 example_resolver answering mx_query None 53
         = Done (Some pkt))
  /\ recursive_resolve 2 1 example_resolver silent mx_query None 53 = Done None
  /\ recursive_resolve 2 500 example_resolver self_referral mx_query None 53
     = recursive_resolve 2 499 example_resolver self_referral mx_query
         (Some "1.2.3.4") 53
  /\ recursive_resolve 2 500 example_resolver self_referral mx_query None 53
     = Raise RecursionError
  /\ _process_question 2 500 {| cache_file := "cache.bin"; cache_data := ∅ |}
       example_resolver self_referral 0 0
       {| q_domain := "a.bc"; q_record_type := 15; q_record_class := 3 |} 0x1234
     = ({| cache_file := "cache.bin"; cache_data := ∅ |}, Done (RList []))
  /\ recursive_resolve 0 1 example_resolver looping mx_query None 53 = Diverge.
Proof.
  split; [|split; [|split; [|split; [|split]]]].
  - eexists. split; [reflexivity|].
    apply (proj1 (proj1 recursive_resolve_has_no_depth_bound
                    2 0 example_resolver answering mx_query None 53%Z a_response _
                    eq_refl eq_refl)).
    reflexivity.
  - eapply (proj1 (proj2 (proj1 recursive_resolve_has_no_depth_bound
                    2 0 example_resolver silent mx_query None 53%Z empty_response _
                    eq_refl eq_refl))); discriminate.
  - eapply (proj2 (proj2 (proj1 recursive_resolve_has_no_depth_bound
                    2 499 example_resolver self_referral mx_query None 53%Z
                    referral _ eq_refl eq_refl))
              {| domain := "ns"; record_type := 1; record_class := 1;
                 ttl := 172800; data_length := 4; data := "1.2.3.4" |});
      [discriminate | reflexivity | discriminate | reflexivity].
  - apply (proj1 (proj2 recursive_resolve_has_no_depth_bound)). lia.
  - eapply (proj1 (proj2 (proj2 recursive_resolve_has_no_depth_bound)) 2 500);
      [lia | reflexivity | reflexivity].
  - apply (proj2 (proj2 (proj2 recursive_resolve_has_no_depth_bound))).
    simpl. lia.
Defined.

(** * Further properties of the decoder *)

(** X1: a datagram of fewer than 12 bytes never decodes: the header cannot
    be unpacked, whatever the budget. *)
Theorem short_packet_fails (fuel : nat) (raw : list byte) :
  length raw < 12 -> __post_init__ fuel raw = Raise StructError.
Proof.
  intros Hlen. unfold __post_init__, _parse_header.
  rewrite take_ge by lia.
  do 12 (destruct raw as [|? raw]; [done|]). simpl in Hlen. lia.
Qed.

Lemma short_packet_fails_witness :
  __post_init__ 0 [xab; xcd; x00; x00] = Raise StructError.
Proof. apply (short_packet_fails 0 [xab; xcd; x00; x00]). simpl. lia. Defined.

Lemma questions_loop_length (fuel : nat) (raw : list byte) :
  forall (count pos : nat) (acc out : list DNSQuestion) (pos' : nat),
    questions_loop fuel raw count pos acc = Done (out, pos') ->
    length out = length acc + count.
Proof.
  induction count as [|count IH]; intros pos acc out pos'; simpl.
  - intros [= <- _]. lia.
  - destruct (_read_domain_name fuel raw pos) as [[name p1]| |]; simpl; try done.
    destruct (unpack_HH _) as [[t c]| |]; simpl; try done.
    intros H. apply IH in H. rewrite length_app in H. simpl in H. lia.
Qed.

Lemma _parse_record_section_length (fuel : nat) (raw : list byte) :
  forall (count pos : nat) (records out : list DNSResourceRecord) (pos' : nat),
    _parse_record_section fuel raw count pos records = Done (out, pos') ->
    length out = length records + count.
Proof.
  induction count as [|count IH]; intros pos records out pos'; simpl.
  - intros [= <- _]. lia.
  - destruct (_read_domain_name fuel raw pos) as [[name p1]| |]; simpl; try done.
    destruct (unpack_HHIH _) as [[[[t c] tl] dl]| |]; simpl; try done.
    destruct (_parse_record_data fuel raw (p1 + 10) t dl) as [[d p2]| |];
      simpl; try done.
    intros H. apply IH in H. rewrite length_app in H. simpl in H. lia.
Qed.

Lemma be_uint_nonneg (bs : list byte) : (0 <= be_uint bs)%Z.
Proof.
  unfold be_uint.
  assert (forall acc, 0 <= acc ->
            0 <= fold_left (fun a b => a * 256 + ord b) bs acc)%Z as H;
    [|by apply H].
  induction bs as [|b bs IH]; intros acc Hacc; simpl; [done|].
  apply IH. unfold ord. lia.
Qed.

Lemma unpack_6H_nonneg (buf : list byte) (i f qd an ns ar : Z) :
  unpack_6H buf = Done (i, f, qd, an, ns, ar) ->
  (0 <= qd /\ 0 <= an /\ 0 <= ns /\ 0 <= ar)%Z.
Proof.
  unfold unpack_6H.
  repeat (destruct buf as [|? buf]; try done).
  intros [= <- <- <- <- <- <-]. repeat split; apply be_uint_nonneg.
Qed.

(** X2: in a decoded packet each of the four sections holds exactly as
    many entries as the header announces, and the packet keeps the bytes
    it was decoded from. *)
Theorem decoded_sections_match_header (fuel : nat) (raw : list byte)
    (p : DNSPacket) :
  __post_init__ fuel raw = Done p ->
  raw_data p = raw
  /\ Z.of_nat (length (questions p)) = questions_count (header p)
  /\ Z.of_nat (length (answers p)) = answers_count (header p)
  /\ Z.of_nat (length (authority_records p)) = authority_count (header p)
  /\ Z.of_nat (length (additional_records p)) = additional_count (header p).
Proof.
  unfold __post_init__, _parse_header.
  destruct (unpack_6H (take 12 raw)) as [[[[[[i f] qd] an] ns] ar]| |] eqn:Hh;
    simpl; try done.
  assert (0 <= qd /\ 0 <= an /\ 0 <= ns /\ 0 <= ar)%Z as (Hqd & Han & Hns & Har).
  { by apply unpack_6H_nonneg in Hh. }
  unfold _parse_questions. simpl.
  destruct (questions_loop fuel raw _ _ []) as [[qs p1]| |] eqn:H0; simpl; try done.
  destruct (_parse_record_section fuel raw _ p1 []) as [[ans p2]| |] eqn:H1;
    simpl; try done.
  destruct (_parse_record_section fuel raw _ p2 []) as [[auth p3]| |] eqn:H2;
    simpl; try done.
  destruct (_parse_record_section fuel raw _ p3 []) as [[add p4]| |] eqn:H3;
    simpl; try done.
  intros [= <-]. simpl.
  apply questions_loop_length in H0.
  apply _parse_record_section_length in H1, H2, H3. simpl in *.
  repeat split; lia.
Qed.

Lemma decoded_sections_match_header_witness :
  exists p, __post_init__ 2 referral = Done p
            /\ raw_data p = referral
            /\ Z.of_nat (length (questions p)) = questions_count (header p)
            /\ Z.of_nat (length (answers p)) = answers_count (header p)
            /\ Z.of_nat (length (authority_records p)) = authority_count (header p)
            /\ Z.of_nat (length (additional_records p)) = additional_count (header p).
Proof.
  eexists. split; [reflexivity|].
  apply (decoded_sections_match_header 2 referral). reflexivity.
Defined.

Lemma read_loop_cursor (fuel : nat) (raw : list byte) :
  forall (current_pos : nat) (compression_offset : option nat)
         (name_parts out : list (list byte)) (pos' : nat),
    read_loop fuel raw current_pos compression_offset name_parts
    = Done (out, pos') ->
    match compression_offset with
    | None => current_pos < pos' <= length raw
    | Some c => pos' = c
    end.
Proof.
  induction fuel as [|fuel IH];
    intros current_pos compression_offset name_parts out pos'; [done|].
  rewrite read_loop_step.
  destruct (raw !! current_pos) as [b|] eqn:Hb; [|done].
  apply lookup_lt_Some in Hb.
  destruct (is_pointer b).
  - destruct (raw !! (current_pos + 1)) as [lo|] eqn:Hlo; [|done].
    apply lookup_lt_Some in Hlo.
    destruct (length raw <=? _); [done|].
    intros H. apply IH in H. simpl in H.
    destruct compression_offset; simpl in *; lia.
  - destruct (63 <? Byte.to_N b)%N; [done|].
    destruct (Byte.to_N b =? 0)%N.
    + intros [= _ <-]. destruct compression_offset; simpl; lia.
    + destruct (length raw <? _); [done|].
      intros H. apply IH in H. destruct compression_offset; lia.
Qed.

(** X3: reading a name moves the cursor forward and never past the end of
    the packet, with or without compression pointers. *)
Theorem read_domain_name_cursor (fuel : nat) (raw : list byte) (pos : nat)
    (name : string) (pos' : nat) :
  _read_domain_name fuel raw pos = Done (name, pos') ->
  pos < pos' <= length raw.
Proof.
  unfold _read_domain_name.
  destruct (read_loop fuel raw pos None []) as [[parts p]| |] eqn:H; simpl;
    try done.
  destruct (decode_all parts); [|done].
  intros [= _ <-]. by apply read_loop_cursor in H.
Qed.

Lemma read_domain_name_cursor_witness :
  0 < 2 <= length forward_pointer_name.
Proof.
  apply (read_domain_name_cursor 3 forward_pointer_name 0 "a" 2). reflexivity.
Defined.

Lemma read_loop_labels (fuel : nat) (raw : list byte) :
  forall (current_pos : nat) (compression_offset : option nat)
         (name_parts out : list (list byte)) (pos' : nat),
    Forall (fun part => 1 <= length part <= 63) name_parts ->
    read_loop fuel raw current_pos compression_offset name_parts
    = Done (out, pos') ->
    Forall (fun part => 1 <= length part <= 63) out.
Proof.
  induction fuel as [|fuel IH];
    intros current_pos compression_offset name_parts out pos' Hparts; [done|].
  rewrite read_loop_step.
  destruct (raw !! current_pos) as [b|]; [|done].
  destruct (is_pointer b).
  - destruct (raw !! (current_pos + 1)) as [lo|]; [|done].
    destruct (length raw <=? _); [done|]. by apply IH.
  - destruct (63 <? Byte.to_N b)%N eqn:H63; [done|].
    destruct (Byte.to_N b =? 0)%N eqn:H0; [by intros [= <- _]|].
    destruct (length raw <? _) eqn:Hend; [done|].
    apply IH. apply Forall_app. split; [done|]. constructor; [|done].
    apply N.ltb_ge in H63. apply N.eqb_neq in H0. apply Nat.ltb_ge in Hend.
    unfold slice. rewrite length_take, length_drop. lia.
Qed.

(** X4: every label of a name that the loop of [_read_domain_name] hands
    back has between 1 and 63 octets. *)
Theorem decoded_labels_bounded (fuel : nat) (raw : list byte) (pos : nat)
    (labels : list (list byte)) (pos' : nat) :
  read_loop fuel raw pos None [] = Done (labels, pos') ->
  Forall (fun part => 1 <= length part <= 63) labels.
Proof. apply read_loop_labels. constructor. Qed.

Lemma decoded_labels_bounded_witness :
  Forall (fun part => 1 <= length part <= 63) [[x61]; [x62; x63]].
Proof. apply (decoded_labels_bounded 3 mx_query 12 _ 18). reflexivity. Defined.

Lemma N_of_ascii_of_byte (b : byte) : N_of_ascii (ascii_of_byte b) = Byte.to_N b.
Proof.
  rewrite ascii_of_byte_via_N. apply N_ascii_embedding.
  pose proof (Byte.to_N_bounded b). lia.
Qed.

Lemma ascii_text_app (s1 s2 : string) :
  ascii_text (s1 ++ s2) = ascii_text s1 && ascii_text s2.
Proof.
  unfold ascii_text. induction s1 as [|c s1 IH]; simpl; [done|].
  by rewrite IH, andb_assoc.
Qed.

Lemma decode_ascii_text (bs : list byte) (s : string) :
  decode_ascii bs = Some s -> ascii_text s = true.
Proof.
  unfold decode_ascii, ascii_text.
  destruct (forallb _ bs) eqn:E; [|done]. intros [= <-].
  unfold string_of_list_byte. rewrite list_ascii_of_string_of_list_ascii.
  induction bs as [|b bs IH]; simpl in *; [done|].
  apply andb_true_iff in E as [Hb Hbs].
  by rewrite N_of_ascii_of_byte, Hb, IH.
Qed.

Lemma join_ascii_text (labels : list string) :
  Forall (fun l => ascii_text l = true) labels ->
  ascii_text (join "." labels) = true.
Proof.
  induction 1 as [|l ls Hl _ IH]; [done|].
  unfold join in *. simpl. destruct ls as [|l' ls]; [done|].
  rewrite !ascii_text_app, Hl. simpl. exact IH.
Qed.

(** X5: a decoded name is ASCII text: every character is below 128. *)
Theorem decoded_name_is_ascii (fuel : nat) (raw : list byte) (pos : nat)
    (name : string) (pos' : nat) :
  _read_domain_name fuel raw pos = Done (name, pos') ->
  ascii_text name = true.
Proof.
  unfold _read_domain_name.
  destruct (read_loop fuel raw pos None []) as [[parts p]| |]; simpl; try done.
  destruct (decode_all parts) as [labels|] eqn:Hd; [|done].
  intros [= <- _]. apply join_ascii_text.
  revert labels Hd. induction parts as [|part parts IH]; intros labels; simpl.
  - intros [= <-]. constructor.
  - destruct (decode_ascii part) as [s|] eqn:Hs; [|done].
    destruct (decode_all parts) as [ss|]; [|done].
    intros [= <-]. constructor; [by eapply decode_ascii_text | by apply IH].
Qed.

Lemma decoded_name_is_ascii_witness : ascii_text "a.bc" = true.
Proof. apply (decoded_name_is_ascii 3 mx_query 12 "a.bc" 18). reflexivity. Defined.

(** * Further properties of the encoder *)

Lemma length_pack_s (n : nat) (bs : list byte) : length (pack_s n bs) = n.
Proof.
  unfold pack_s. rewrite length_app, length_take, length_replicate. lia.
Qed.

Lemma encode_label_length (label : string) (e : list byte) :
  encode_label label = Done e -> length e = String.length label + 1.
Proof.
  unfold encode_label, pack_B. destruct (_ && _); [|done]. simpl.
  intros [= <-]. simpl. rewrite length_pack_s. lia.
Qed.

Lemma encode_labels_length (labels : list string) :
  forall (total_length : nat) (encoded : list byte) (n : nat) (e : list byte),
    encode_labels labels total_length encoded = Done (n, e) ->
    n + length encoded = total_length + length e.
Proof.
  induction labels as [|l ls IH]; intros total_length encoded n e; simpl.
  - intros [= <- <-]. lia.
  - destruct (encode_label l) as [el| |] eqn:Hl; simpl; try done.
    intros H. apply IH in H. apply encode_label_length in Hl.
    rewrite length_app in H. lia.
Qed.

Lemma encode_domain_name_reports_length (domain : string) (total_length : nat)
    (encoded : list byte) :
  encode_domain_name domain = Done (total_length, encoded) ->
  total_length = length encoded.
Proof.
  unfold encode_domain_name.
  destruct (encode_labels _ 0 []) as [[n e]| |] eqn:H; simpl; try done.
  intros [= <- <-]. apply encode_labels_length in H.
  rewrite length_app. simpl in *. lia.
Qed.

(** X6: whenever [encode_domain_name] returns, the length it reports is the
    number of bytes it emitted. *)
Theorem encode_domain_name_length (domain : string) (total_length : nat)
    (encoded : list byte) :
  encode_domain_name domain = Done (total_length, encoded) ->
  total_length = length encoded.
Proof. apply encode_domain_name_reports_length. Qed.

Lemma encode_domain_name_length_witness :
  13 = length [x07; x65; x78; x61; x6d; x70; x6c; x65; x03; x63; x6f; x6d; x00].
Proof. apply (encode_domain_name_length "example.com"). reflexivity. Defined.

Lemma encode_labels_outcome (labels : list string) :
  forall (total_length : nat) (encoded : list byte),
    (Forall (fun l => String.length l <= 255) labels ->
     exists n e, encode_labels labels total_length encoded = Done (n, e))
    /\ (Exists (fun l => 255 < String.length l) labels ->
        encode_labels labels total_length encoded = Raise StructError).
Proof.
  induction labels as [|l ls IH]; intros total_length encoded; simpl.
  - split; [eauto | by intros H; inversion H].
  - unfold encode_label, pack_B.
    destruct (decide (String.length l <= 255)) as [Hl|Hl].
    + assert (((0 <=? Z.of_nat (String.length l))
               && (Z.of_nat (String.length l) <? 256))%Z = true) as ->.
      { apply andb_true_iff. split; [apply Z.leb_le | apply Z.ltb_lt]; lia. }
      simpl. split.
      * intros H. inversion H; subst. by apply IH.
      * intros H. inversion H; subst; [lia|]. by apply IH.
    + assert (((0 <=? Z.of_nat (String.length l))
               && (Z.of_nat (String.length l) <? 256))%Z = false) as ->.
      { apply andb_false_iff. right. apply Z.ltb_ge. lia. }
      simpl. split; [|done]. intros H. inversion H; subst. lia.
Qed.

(** X7: [encode_domain_name] fails, with [struct.error], exactly when some
    label is longer than 255 characters; labels of 64 to 255 characters,
    and empty labels, are encoded. *)
Theorem encode_domain_name_outcome (domain : string) :
  (Forall (fun l => String.length l <= 255) (split_dot domain) ->
   exists n e, encode_domain_name domain = Done (n, e))
  /\ (Exists (fun l => 255 < String.length l) (split_dot domain) ->
      encode_domain_name domain = Raise StructError).
Proof.
  unfold encode_domain_name.
  destruct (encode_labels_outcome (split_dot domain) 0 []) as [Hok Hbad].
  split.
  - intros H. destruct (Hok H) as (n & e & ->). simpl. eauto.
  - intros H. by rewrite (Hbad H).
Qed.

Lemma encode_domain_name_outcome_witness :
  (exists n e, encode_domain_name "a..b" = Done (n, e))
  /\ encode_domain_name
       (string_of_list_ascii (replicate 256 "a"%char) ++ ".com")
     = Raise StructError.
Proof.
  split.
  - apply (proj1 (encode_domain_name_outcome "a..b")).
    repeat constructor; simpl; lia.
  - apply (proj2 (encode_domain_name_outcome _)).
    apply Exists_cons_hd. vm_compute. lia.
Defined.

(** ** Packing and unpacking 16-bit values *)

Lemma ord_chr (z : Z) : ord (chr z) = (z mod 256)%Z.
Proof.
  unfold ord, chr.
  pose proof (Z.mod_pos_bound z 256 ltac:(lia)) as Hm.
  destruct (Byte.of_N (Z.to_N (z mod 256))) as [b|] eqn:E.
  - apply Byte.to_of_N in E. lia.
  - apply Byte.of_N_None_iff in E. lia.
Qed.

Lemma chr_ord (b : byte) : chr (ord b) = b.
Proof.
  unfold chr, ord. pose proof (Byte.to_N_bounded b).
  rewrite Z.mod_small by lia. rewrite N2Z.id. by rewrite Byte.of_to_N.
Qed.

Lemma be_uint_2 (hi lo : byte) : be_uint [hi; lo] = (ord hi * 256 + ord lo)%Z.
Proof. unfold be_uint. simpl. lia. Qed.

Lemma ord_bounds (b : byte) : (0 <= ord b < 256)%Z.
Proof. unfold ord. pose proof (Byte.to_N_bounded b). lia. Qed.

Lemma be_uint_pack_H (v : Z) :
  is_u16 v -> be_uint [chr (v / 256); chr v] = v.
Proof.
  intros Hv. unfold is_u16 in Hv. rewrite be_uint_2, !ord_chr.
  rewrite (Z.mod_small (v / 256)).
  - pose proof (Z.div_mod v 256 ltac:(lia)). lia.
  - split; [apply Z.div_pos; lia | apply Z.div_lt_upper_bound; lia].
Qed.

Lemma pack_H_ok (v : Z) : is_u16 v -> pack_H v = Done [chr (v / 256); chr v].
Proof.
  intros [Hlo Hhi]. unfold pack_H.
  apply Z.leb_le in Hlo. apply Z.ltb_lt in Hhi. by rewrite Hlo, Hhi.
Qed.

Lemma pack_H_be_uint (hi lo : byte) : pack_H (be_uint [hi; lo]) = Done [hi; lo].
Proof.
  pose proof (ord_bounds hi). pose proof (ord_bounds lo).
  rewrite pack_H_ok by (unfold is_u16; rewrite be_uint_2; lia).
  rewrite be_uint_2. f_equal. f_equal; [|f_equal].
  - replace ((ord hi * 256 + ord lo) / 256)%Z with (ord hi); [apply chr_ord|].
    apply Z.div_unique with (r := ord lo); lia.
  - transitivity (chr (ord lo)); [|apply chr_ord].
    unfold chr. by rewrite Z.add_comm, Z.mod_add by lia.
Qed.

(** Six 16-bit values packed as a header unpack to the same six. *)
Lemma pack_unpack_6H (a b c d e f : Z) :
  is_u16 a -> is_u16 b -> is_u16 c -> is_u16 d -> is_u16 e -> is_u16 f ->
  exists hdr,
    pack_all pack_H [a; b; c; d; e; f] = Done hdr
    /\ length hdr = 12
    /\ unpack_6H hdr = Done (a, b, c, d, e, f).
Proof.
  intros Ha Hb Hc Hd He Hf. unfold pack_all.
  rewrite !pack_H_ok by done.
  cbn [mbind outcome_bind mret outcome_ret app].
  eexists. split; [reflexivity|]. split; [reflexivity|].
  unfold unpack_6H. by rewrite !be_uint_pack_H.
Qed.

Lemma pack_unpack_HH (t c : Z) :
  is_u16 t -> is_u16 c ->
  pack_all pack_H [t; c] = Done [chr (t / 256); chr t; chr (c / 256); chr c]
  /\ unpack_HH [chr (t / 256); chr t; chr (c / 256); chr c] = Done (t, c).
Proof.
  intros Ht Hc. unfold pack_all. rewrite !pack_H_ok by done.
  cbn [mbind outcome_bind mret outcome_ret app]. split; [done|].
  unfold unpack_HH. by rewrite !be_uint_pack_H.
Qed.

(** ** Questions: encoding, then decoding *)

Lemma length_wire_question (q : DNSQuestion) :
  length (wire_question q) = length (wire_labels (split_dot (q_domain q))) + 5.
Proof. unfold wire_question. rewrite length_app. simpl. lia. Qed.

Lemma append_questions_wire (qs : list DNSQuestion) :
  Forall plain_question qs ->
  forall packet, append_questions qs packet = Done (packet ++ wire_questions qs).
Proof.
  induction 1 as [|q qs (Hl & Ht & Hc) _ IH]; intros packet;
    cbn [append_questions].
  - simpl. by rewrite app_nil_r.
  - change (wire_questions (q :: qs)) with (wire_question q ++ wire_questions qs).
    unfold encode_domain_name. rewrite (encode_labels_wire _ Hl).
    cbn [mbind outcome_bind mret outcome_ret app].
    destruct (pack_unpack_HH _ _ Ht Hc) as [-> _].
    cbn [mbind outcome_bind mret outcome_ret app].
    rewrite IH. f_equal. unfold wire_question.
    rewrite <- !app_assoc. by simpl.
Qed.

Lemma questions_loop_wire (fuel : nat) (qs : list DNSQuestion) (rest : list byte) :
  Forall plain_question qs ->
  Forall (fun q => length (split_dot (q_domain q)) < fuel) qs ->
  forall (pre : list byte) (acc : list DNSQuestion),
    questions_loop fuel (pre ++ wire_questions qs ++ rest) (length qs)
      (length pre) acc
    = Done (acc ++ qs, length pre + length (wire_questions qs)).
Proof.
  induction 1 as [|q qs (Hl & Ht & Hc) _ IH]; intros Hfuel pre acc.
  - simpl. by rewrite app_nil_r, Nat.add_0_r.
  - apply Forall_cons in Hfuel as [Hq Hfuel].
    change (wire_questions (q :: qs)) with (wire_question q ++ wire_questions qs).
    cbn [questions_loop length].
    assert (pre ++ (wire_question q ++ wire_questions qs) ++ rest
            = pre ++ wire_labels (split_dot (q_domain q))
                ++ x00 :: ([chr (q_record_type q / 256); chr (q_record_type q);
                            chr (q_record_class q / 256); chr (q_record_class q)]
                           ++ wire_questions qs ++ rest)) as Hraw.
    { unfold wire_question. rewrite <- !app_assoc. by simpl. }
    assert (_read_domain_name fuel
              (pre ++ (wire_question q ++ wire_questions qs) ++ rest) (length pre)
            = Done (q_domain q,
                    length pre + length (wire_labels (split_dot (q_domain q))) + 1))
      as ->.
    { rewrite Hraw. unfold _read_domain_name.
      rewrite (read_loop_wire _ _ Hl fuel pre [] Hq). simpl.
      by rewrite (decode_all_encode _ Hl), join_split_dot. }
    cbn [mbind outcome_bind mret outcome_ret].
    assert (slice (pre ++ (wire_question q ++ wire_questions qs) ++ rest)
              (length pre + length (wire_labels (split_dot (q_domain q))) + 1)
              (length pre + length (wire_labels (split_dot (q_domain q))) + 1 + 4)
            = [chr (q_record_type q / 256); chr (q_record_type q);
               chr (q_record_class q / 256); chr (q_record_class q)]) as ->.
    { rewrite Hraw. unfold slice.
      replace (length pre + length (wire_labels (split_dot (q_domain q))) + 1 + 4
               - (length pre + length (wire_labels (split_dot (q_domain q))) + 1))
        with 4 by lia.
      rewrite app_assoc.
      replace ((pre ++ wire_labels (split_dot (q_domain q)))
               ++ x00 :: ([chr (q_record_type q / 256); chr (q_record_type q);
                           chr (q_record_class q / 256); chr (q_record_class q)]
                          ++ wire_questions qs ++ rest))
        with (((pre ++ wire_labels (split_dot (q_domain q))) ++ [x00])
              ++ [chr (q_record_type q / 256); chr (q_record_type q);
                  chr (q_record_class q / 256); chr (q_record_class q)]
              ++ wire_questions qs ++ rest)
        by (by rewrite <- (app_assoc _ [x00])).
      rewrite drop_app_length' by (rewrite !length_app; simpl; lia).
      reflexivity. }
    destruct (pack_unpack_HH _ _ Ht Hc) as [_ ->].
    cbn [mbind outcome_bind mret outcome_ret].
    replace (length pre + length (wire_labels (split_dot (q_domain q))) + 1 + 4)
      with (length (pre ++ wire_question q))
      by (rewrite length_app, length_wire_question; lia).
    replace (pre ++ (wire_question q ++ wire_questions qs) ++ rest)
      with ((pre ++ wire_question q) ++ wire_questions qs ++ rest)
      by (by rewrite <- !app_assoc).
    rewrite (IH Hfuel). destruct q as [d t c]. simpl.
    f_equal. f_equal.
    + by rewrite <- app_assoc.
    + rewrite !length_app. lia.
Qed.

(** A header that announces [qs] and nothing else, followed by the wire
    form of [qs], decodes to that header and those questions. *)
Lemma decode_header_and_questions (fuel : nat) (hdr : list byte) (i f : Z)
    (qs : list DNSQuestion) :
  length hdr = 12 ->
  unpack_6H hdr = Done (i, f, Z.of_nat (length qs), 0, 0, 0)%Z ->
  Forall plain_question qs ->
  Forall (fun q => length (split_dot (q_domain q)) < fuel) qs ->
  __post_init__ fuel (hdr ++ wire_questions qs)
  = Done {| raw_data := hdr ++ wire_questions qs;
            _position := length (hdr ++ wire_questions qs);
            header := {| packet_id := i; flags := f;
                         questions_count := Z.of_nat (length qs);
                         answers_count := 0; authority_count := 0;
                         additional_count := 0 |};
            questions := qs; answers := []; authority_records := [];
            additional_records := [] |}.
Proof.
  intros Hlen Hhdr Hplain Hfuel. unfold __post_init__, _parse_header.
  rewrite take_app_length' by done. rewrite Hhdr.
  cbn [mbind outcome_bind mret outcome_ret]. unfold _parse_questions.
  cbn [questions_count answers_count authority_count additional_count].
  rewrite Nat2Z.id.
  pose proof (questions_loop_wire fuel qs [] Hplain Hfuel hdr []) as Hq.
  rewrite app_nil_r, Hlen in Hq. simpl in Hq.
  change (0 + 12) with 12. rewrite Hq.
  cbn [mbind outcome_bind mret outcome_ret]. simpl.
  by rewrite length_app, Hlen.
Qed.

(** X8: a query built for a 16-bit id, type and class and a name of plain
    labels decodes to a packet with that id, the flags 0x0100, exactly that
    one question and no record, the cursor at the end of the query. *)
Theorem build_query_packet_round_trip (fuel : nat) (query_id : Z)
    (q : DNSQuestion) :
  is_u16 query_id ->
  plain_question q ->
  length (split_dot (q_domain q)) < fuel ->
  exists query,
    build_query_packet query_id (q_domain q) (q_record_type q) (q_record_class q)
    = Done query
    /\ __post_init__ fuel query
       = Done {| raw_data := query; _position := length query;
                 header := {| packet_id := query_id; flags := 0x0100;
                              questions_count := 1; answers_count := 0;
                              authority_count := 0; additional_count := 0 |};
                 questions := [q]; answers := []; authority_records := [];
                 additional_records := [] |}.
Proof.
  intros Hid Hq Hfuel. pose proof Hq as (Hl & Ht & Hc).
  destruct (pack_unpack_6H query_id 0x0100 1 0 0 0) as (hdr & Hpack & Hlen & Hun);
    try done; try (unfold is_u16; lia).
  unfold build_query_packet. rewrite Hpack.
  cbn [mbind outcome_bind mret outcome_ret].
  unfold encode_domain_name. rewrite (encode_labels_wire _ Hl).
  cbn [mbind outcome_bind mret outcome_ret app].
  destruct (pack_unpack_HH _ _ Ht Hc) as [-> _].
  cbn [mbind outcome_bind mret outcome_ret].
  eexists. split; [reflexivity|].
  replace ((wire_labels (split_dot (q_domain q)) ++ [x00])
           ++ [chr (q_record_type q / 256); chr (q_record_type q);
               chr (q_record_class q / 256); chr (q_record_class q)])
    with (wire_questions [q])
    by (unfold wire_questions, wire_question; simpl;
        by rewrite app_nil_r, <- app_assoc).
  apply (decode_header_and_questions fuel hdr query_id 0x0100 [q]); try done.
  - by constructor.
  - by constructor.
Qed.

Lemma build_query_packet_round_trip_witness :
  exists query,
    build_query_packet 0x1234 "example.com" 1 1 = Done query
    /\ __post_init__ 3 query
       = Done {| raw_data := query; _position := length query;
                 header := {| packet_id := 0x1234; flags := 0x0100;
                              questions_count := 1; answers_count := 0;
                              authority_count := 0; additional_count := 0 |};
                 questions := [example_question]; answers := [];
                 authority_records := []; additional_records := [] |}.
Proof.
  apply (build_query_packet_round_trip 3 0x1234 example_question).
  - unfold is_u16. lia.
  - repeat split; try (repeat constructor); simpl; lia.
  - simpl. lia.
Defined.

(** X9: a response built for a 16-bit id, fewer than 65536 plain questions
    and no answer decodes to a packet with that id, the flags 0x8100, the
    questions in their order and no record. *)
Theorem build_response_packet_questions_round_trip (fuel : nat)
    (request_header : DNSHeader) (qs : list DNSQuestion) :
  is_u16 (packet_id request_header) ->
  is_u16 (Z.of_nat (length qs)) ->
  Forall plain_question qs ->
  Forall (fun q => length (split_dot (q_domain q)) < fuel) qs ->
  exists response,
    build_response_packet request_header qs [] = Done response
    /\ __post_init__ fuel response
       = Done {| raw_data := response; _position := length response;
                 header := {| packet_id := packet_id request_header;
                              flags := 0x8100;
                              questions_count := Z.of_nat (length qs);
                              answers_count := 0; authority_count := 0;
                              additional_count := 0 |};
                 questions := qs; answers := []; authority_records := [];
                 additional_records := [] |}.
Proof.
  intros Hid Hn Hplain Hfuel.
  destruct (pack_unpack_6H (packet_id request_header) 0x8100
              (Z.of_nat (length qs)) 0 0 0)
    as (hdr & Hpack & Hlen & Hun); try done; try (unfold is_u16; lia).
  unfold build_response_packet.
  change (Z.lor (Z.shiftl 1 15) (Z.shiftl 1 8)) with 0x8100%Z.
  change (Z.of_nat (length (@nil DNSResourceRecord))) with 0%Z.
  rewrite Hpack. cbn [mbind outcome_bind mret outcome_ret].
  rewrite (append_questions_wire _ Hplain).
  cbn [mbind outcome_bind mret outcome_ret append_answers].
  eexists. split; [reflexivity|].
  by apply decode_header_and_questions.
Qed.

Lemma build_response_packet_questions_round_trip_witness :
  exists response,
    build_response_packet
      {| packet_id := 0x1234; flags := 0x0100; questions_count := 1;
         answers_count := 0; authority_count := 0; additional_count := 0 |}
      [example_question] [] = Done response
    /\ __post_init__ 3 response
       = Done {| raw_data := response; _position := length response;
                 header := {| packet_id := 0x1234; flags := 0x8100;
                              questions_count := 1;
                              answers_count := 0; authority_count := 0;
                              additional_count := 0 |};
                 questions := [example_question]; answers := [];
                 authority_records := []; additional_records := [] |}.
Proof.
  apply (build_response_packet_questions_round_trip 3
           {| packet_id := 0x1234; flags := 0x0100; questions_count := 1;
              answers_count := 0; authority_count := 0; additional_count := 0 |}
           [example_question]).
  - unfold is_u16. simpl. lia.
  - unfold is_u16. simpl. lia.
  - repeat constructor; simpl; lia.
  - repeat constructor.
Defined.

(** ** Resource data: decoding, then encoding *)

Lemma split_dot_free (s : string) : free_of "." s = true -> split_dot s = [s].
Proof.
  unfold free_of. induction s as [|c s IH]; simpl; [done|].
  destruct (Ascii.eqb c "."); simpl; [done|]. intros H. by rewrite IH.
Qed.

Lemma split_dot_app (s rest : string) :
  free_of "." s = true ->
  split_dot (s ++ String "." rest) = s :: split_dot rest.
Proof.
  unfold free_of. induction s as [|c s IH]; simpl; [done|].
  destruct (Ascii.eqb c "."); simpl; [done|]. intros H. by rewrite IH.
Qed.

Lemma split_dot_join (labels : list string) :
  labels <> [] ->
  Forall (fun l => free_of "." l = true) labels ->
  split_dot (join "." labels) = labels.
Proof.
  intros Hne H. induction H as [|l ls Hl Hls IH]; [done|].
  destruct ls as [|l' ls]; [by apply split_dot_free|].
  change (join "." (l :: l' :: ls))
    with (l ++ String "." (join "." (l' :: ls)))%string.
  rewrite split_dot_app by done. f_equal. by apply IH.
Qed.

Lemma split_colon_free (s : string) : free_of ":" s = true -> split_colon s = [s].
Proof.
  unfold free_of. induction s as [|c s IH]; simpl; [done|].
  destruct (Ascii.eqb c ":"); simpl; [done|]. intros H. by rewrite IH.
Qed.

Lemma split_colon_app (s rest : string) :
  free_of ":" s = true ->
  split_colon (s ++ String ":" rest) = s :: split_colon rest.
Proof.
  unfold free_of. induction s as [|c s IH]; simpl; [done|].
  destruct (Ascii.eqb c ":"); simpl; [done|]. intros H. by rewrite IH.
Qed.

Lemma split_colon_join (labels : list string) :
  labels <> [] ->
  Forall (fun l => free_of ":" l = true) labels ->
  split_colon (join ":" labels) = labels.
Proof.
  intros Hne H. induction H as [|l ls Hl Hls IH]; [done|].
  destruct ls as [|l' ls]; [by apply split_colon_free|].
  change (join ":" (l :: l' :: ls))
    with (l ++ String ":" (join ":" (l' :: ls)))%string.
  rewrite split_colon_app by done. f_equal. by apply IH.
Qed.

(** The decimal text of an octet has no dot and reads back as the
    octet. *)
Lemma str_octet (b : byte) :
  free_of "." (str (ord b)) = true /\ int 10 (str (ord b)) = Some (ord b).
Proof. destruct b; split; vm_compute; reflexivity. Qed.

Lemma in_z_range (n : nat) :
  forall (from v : Z), (from <= v < from + Z.of_nat n)%Z -> In v (z_range n from).
Proof.
  induction n as [|n IH]; intros from v Hv; [lia|]. simpl.
  destruct (decide (v = from)) as [->|Hne]; [by left|].
  right. apply IH. lia.
Qed.

(** The four hexadecimal digits of a 16-bit value have no colon and read
    back as the value. *)
Lemma hex04_u16s :
  forallb (fun v => free_of ":" (hex04 v)
                    && match int 16 (hex04 v) with
                       | Some v' => (v' =? v)%Z
                       | None => false
                       end) u16s = true.
Proof. vm_compute. reflexivity. Qed.

Lemma hex04_hextet (v : Z) :
  is_u16 v -> free_of ":" (hex04 v) = true /\ int 16 (hex04 v) = Some v.
Proof.
  intros [Hlo Hhi]. pose proof hex04_u16s as H.
  rewrite forallb_forall in H. specialize (H v).
  assert (In v u16s) as Hin.
  { unfold u16s. apply in_z_range.
    change (Z.of_nat (Nat.pow 2 16)) with 65536%Z. lia. }
  apply H in Hin. apply andb_true_iff in Hin as [Hfree Hint].
  split; [done|]. destruct (int 16 (hex04 v)) as [v'|]; [|done].
  apply Z.eqb_eq in Hint. by subst.
Qed.

Lemma map_int_octets (bs : list byte) :
  map_outcome (int_or_raise 10) (map str (map ord bs)) = Done (map ord bs).
Proof.
  induction bs as [|b bs IH]; [done|]. cbn [map map_outcome].
  assert (int_or_raise 10 (str (ord b)) = Done (ord b)) as ->
    by (unfold int_or_raise; by destruct (str_octet b) as [_ ->]).
  cbn [mbind outcome_bind mret outcome_ret]. by rewrite IH.
Qed.

Lemma pack_all_B_octets (bs : list byte) :
  pack_all pack_B (map ord bs) = Done bs.
Proof.
  induction bs as [|b bs IH]; [done|]. cbn [map pack_all].
  assert (pack_B (ord b) = Done [b]) as ->.
  { pose proof (ord_bounds b) as [Hlo Hhi]. unfold pack_B.
    apply Z.leb_le in Hlo. apply Z.ltb_lt in Hhi.
    by rewrite Hlo, Hhi, chr_ord. }
  cbn [mbind outcome_bind mret outcome_ret]. rewrite IH.
  by cbn [mbind outcome_bind mret outcome_ret app].
Qed.

(** What the encoder makes of the text the decoder gives for the octets
    [bs] of an A record. *)
Lemma encode_record_data_octets (length : Z) (bs : list byte) :
  encode_record_data 1 length (join "." (map str (map ord bs)))
  = match bs with
    | [] => Raise (ValueError InvalidASCII)
    | [_; _; _; _] => l ← pack_H length; mret (l ++ bs)
    | _ => Raise StructError
    end.
Proof.
  unfold encode_record_data. simpl (_ =? _)%Z. cbv iota.
  destruct bs as [|b0 bs0]; [done|].
  rewrite split_dot_join.
  - rewrite map_int_octets.
    cbn [mbind outcome_bind mret outcome_ret].
    destruct bs0 as [|b1 [|b2 [|b3 [|b4 bs4]]]]; cbn [map]; try reflexivity.
    change [ord b0; ord b1; ord b2; ord b3] with (map ord [b0; b1; b2; b3]).
    rewrite pack_all_B_octets. by destruct (pack_H length).
  - done.
  - apply Forall_forall. intros s Hs.
    apply list_elem_of_In, in_map_iff in Hs as (z & <- & Hz).
    apply in_map_iff in Hz as (b & <- & _). apply str_octet.
Qed.

(** X10: the four octets of an A record decode to text that the encoder
    turns back into the length field 4 and the same four octets. *)
Theorem a_rdata_round_trip (fuel : nat) (raw : list byte) (pos : nat)
    (a b c d : byte) :
  slice raw pos (pos + 4) = [a; b; c; d] ->
  exists data,
    _parse_record_data fuel raw pos 1 4 = Done (data, pos + 4)
    /\ encode_record_data 1 4 data = Done [x00; x04; a; b; c; d].
Proof.
  intros Hs. unfold _parse_record_data, unpack_nB. simpl (_ =? _)%Z. cbv iota.
  change (Z.to_nat 4) with 4. rewrite Hs. simpl length. simpl (4 =? 4).
  cbv iota. cbn [mbind outcome_bind mret outcome_ret].
  eexists. split; [reflexivity|].
  by rewrite (encode_record_data_octets 4 [a; b; c; d]).
Qed.

Lemma a_rdata_round_trip_witness :
  exists data,
    _parse_record_data 0 a_response 25 1 4 = Done (data, 25 + 4)
    /\ encode_record_data 1 4 data = Done [x00; x04; x5d; xb8; xd8; x22].
Proof. apply (a_rdata_round_trip 0 a_response 25 x5d xb8 xd8 x22). reflexivity. Defined.

(** X11: an A record decoded with an rdlength other than 4 cannot be sent
    on: the decoder accepts its [n] octets, and the encoder raises on the
    text they decode to, whatever length field it is given. *)
Theorem a_rdata_other_length_not_encodable (fuel : nat) (raw : list byte)
    (pos : nat) (data_len length : Z) :
  Z.to_nat data_len <> 4 ->
  Z.to_nat data_len <= List.length raw - pos ->
  exists data e,
    _parse_record_data fuel raw pos 1 data_len
    = Done (data, pos + Z.to_nat data_len)
    /\ encode_record_data 1 length data = Raise e.
Proof.
  intros Hne Hle. unfold _parse_record_data, unpack_nB.
  simpl (_ =? _)%Z. cbv iota.
  assert (List.length (slice raw pos (pos + Z.to_nat data_len))
          = Z.to_nat data_len) as Hlen
    by (rewrite length_slice; lia).
  rewrite Hlen, Nat.eqb_refl. cbn [mbind outcome_bind mret outcome_ret].
  exists (join "." (map str (map ord (slice raw pos (pos + Z.to_nat data_len))))).
  rewrite encode_record_data_octets.
  destruct (slice raw pos (pos + Z.to_nat data_len))
    as [|b0 [|b1 [|b2 [|b3 [|b4 bs]]]]]; simpl in Hlen; try lia;
    eexists; split; reflexivity.
Qed.

Lemma a_rdata_other_length_not_encodable_witness :
  exists data e,
    _parse_record_data 0 short_a_response 25 1 2 = Done (data, 25 + Z.to_nat 2)
    /\ encode_record_data 1 2 data = Raise e.
Proof.
  apply (a_rdata_other_length_not_encodable 0 short_a_response 25 2 2).
  - vm_compute. lia.
  - vm_compute. lia.
Defined.

Lemma int_or_raise_hextet (hi lo : byte) :
  free_of ":" (hex04 (be_uint [hi; lo])) = true
  /\ int_or_raise 16 (hex04 (be_uint [hi; lo])) = Done (be_uint [hi; lo]).
Proof.
  assert (is_u16 (be_uint [hi; lo])) as Hu.
  { pose proof (ord_bounds hi). pose proof (ord_bounds lo).
    unfold is_u16. rewrite be_uint_2. lia. }
  destruct (hex04_hextet _ Hu) as [Hfree Hint].
  split; [done|]. unfold int_or_raise. by rewrite Hint.
Qed.

(** X12: the sixteen octets of an AAAA record decode to eight groups of
    four hexadecimal digits that the encoder turns back into the length
    field 16 and the same sixteen octets. *)
Theorem aaaa_rdata_round_trip (fuel : nat) (raw : list byte) (pos : nat)
    (bs : list byte) :
  slice raw pos (pos + 16) = bs ->
  List.length bs = 16 ->
  exists data,
    _parse_record_data fuel raw pos 28 16 = Done (data, pos + 16)
    /\ encode_record_data 28 16 data = Done (x00 :: x10 :: bs).
Proof.
  intros Hs Hlen. unfold _parse_record_data, unpack_nH.
  simpl (_ =? _)%Z. simpl (_ || _). cbv iota.
  change (Z.to_nat 16) with 16. rewrite Hs, Hlen.
  change (16 =? 2 * (16 / 2)) with true. cbv iota.
  cbn [mbind outcome_bind mret outcome_ret].
  eexists. split; [reflexivity|].
  do 17 (destruct bs as [|? bs]; try done). clear Hs Hlen.
  cbn [pairs_be map]. unfold encode_record_data.
  simpl (_ =? _)%Z. simpl (_ || _). cbv iota.
  rewrite split_colon_join;
    [|done|repeat constructor; apply int_or_raise_hextet].
  cbn [map_outcome]. 
  repeat (rewrite (proj2 (int_or_raise_hextet _ _));
          cbn [mbind outcome_bind mret outcome_ret]).
  cbn [pack_all]. rewrite !pack_H_be_uint.
  reflexivity.
Qed.

Lemma aaaa_rdata_round_trip_witness :
  exists data,
    _parse_record_data 0
      [x20; x01; x0d; xb8; x00; x00; x00; x00; x00; x00; x00; x00; x00; x00;
       x00; x01] 0 28 16 = Done (data, 0 + 16)
    /\ encode_record_data 28 16 data
       = Done (x00 :: x10 ::
               [x20; x01; x0d; xb8; x00; x00; x00; x00; x00; x00; x00; x00;
                x00; x00; x00; x01]).
Proof.
  apply (aaaa_rdata_round_trip 0 _ 0); reflexivity.
Defined.

(** X13: for a name of plain labels whose encoding fits a 16-bit length,
    the rdata of an NS or PTR record carries the length of the encoded name,
    whatever length the record had, and the decoder reads the name back
    from those bytes, whatever rdlength precedes them. *)
Theorem name_rdata_round_trip (fuel : nat) (t : Z) (name : string)
    (length data_len : Z) (before rest : list byte) (n : nat)
    (encoded : list byte) :
  t = 2%Z \/ t = 12%Z ->
  Forall (fun l => ascii_label l = true) (split_dot name) ->
  List.length (split_dot name) < fuel ->
  encode_domain_name name = Done (n, encoded) ->
  is_u16 (Z.of_nat n) ->
  encode_record_data t length name
  = Done (chr (Z.of_nat n / 256) :: chr (Z.of_nat n) :: encoded)
  /\ be_uint [chr (Z.of_nat n / 256); chr (Z.of_nat n)]
     = Z.of_nat (List.length encoded)
  /\ _parse_record_data fuel (before ++ encoded ++ rest) (List.length before)
       t data_len
     = Done (name, List.length before + List.length encoded).
Proof.
  intros Ht Hl Hfuel Henc Hn.
  pose proof (encode_domain_name_reports_length _ _ _ Henc) as Hlen.
  assert (encoded = wire_labels (split_dot name) ++ [x00]) as Hwire.
  { unfold encode_domain_name in Henc.
    rewrite (encode_labels_wire _ Hl) in Henc. simpl in Henc.
    by injection Henc as _ <-. }
  assert (((t =? 1) = false /\ ((t =? 2) || (t =? 12)) = true)%Z) as [H1 H2]
    by (destruct Ht as [-> | ->]; done).
  repeat split.
  - unfold encode_record_data. simpl DNSRecordType.value.
    rewrite H1, H2, Henc. cbn [mbind outcome_bind mret outcome_ret].
    by rewrite (pack_H_ok _ Hn).
  - rewrite (be_uint_pack_H _ Hn). by rewrite Hlen.
  - unfold _parse_record_data. simpl DNSRecordType.value. rewrite H1, H2.
    unfold _read_domain_name. rewrite Hwire, <- app_assoc. simpl app.
    rewrite (read_loop_wire _ rest Hl fuel before [] Hfuel). simpl.
    rewrite (decode_all_encode _ Hl), join_split_dot.
    rewrite length_app. simpl. by rewrite Nat.add_assoc.
Qed.

Lemma name_rdata_round_trip_witness :
  encode_record_data 2 99 "ns"
  = Done (chr (Z.of_nat 4 / 256) :: chr (Z.of_nat 4) :: [x02; x6e; x73; x00])
  /\ be_uint [chr (Z.of_nat 4 / 256); chr (Z.of_nat 4)]
     = Z.of_nat (List.length [x02; x6e; x73; x00])
  /\ _parse_record_data 2 ([xff] ++ [x02; x6e; x73; x00] ++ [xee])
       (List.length [xff]) 2 7
     = Done ("ns", List.length [xff] + List.length [x02; x6e; x73; x00]).
Proof.
  apply (name_rdata_round_trip 2 2 "ns" 99 7 [xff] [xee] 4 [x02; x6e; x73; x00]).
  - by left.
  - repeat constructor.
  - simpl. lia.
  - reflexivity.
  - unfold is_u16. lia.
Defined.

(** * Further properties of the cache *)

Lemma entry_of_Some (self : DNSCache) (d : string) (t : Z)
    (e : Z * list DNSResourceRecord) :
  entry_of self d t = Some e <->
  exists inner, cache_data self !! d = Some inner /\ inner !! t = Some e.
Proof.
  unfold entry_of. destruct (cache_data self !! d) as [inner|]; simpl.
  - split; [eauto|]. by intros (? & [= <-] & ?).
  - split; [done|]. by intros (? & ? & ?).
Qed.

Lemma add_records_at (self : DNSCache) (now : Z) (d : string) (t : Z)
    (records : list DNSResourceRecord) (d' : string) (t' : Z) :
  entry_of (add_records self now d t records) d' t'
  = if decide (d' = d /\ t' = t)
    then Some (default (now, records) (entry_of self d t))
    else entry_of self d' t'.
Proof.
  unfold add_records, entry_of.
  destruct (cache_data self !! d) as [inner|] eqn:Hd.
  - rewrite Hd. simpl. destruct (inner !! t) as [e|] eqn:Ht; simpl.
    + case_decide as H; [|done]. destruct H as [-> ->]. rewrite Hd. simpl.
      by rewrite Ht.
    + destruct (decide (d' = d)) as [->|Hne].
      * rewrite lookup_insert_eq. simpl.
        destruct (decide (t' = t)) as [->|Hnt].
        -- rewrite lookup_insert_eq. by rewrite decide_True.
        -- rewrite lookup_insert_ne by done.
           rewrite decide_False by (by intros [_ ?]). by rewrite Hd.
      * rewrite lookup_insert_ne by done.
        by rewrite decide_False by (by intros [? _]).
  - rewrite lookup_insert_eq, lookup_empty. simpl.
    destruct (decide (d' = d)) as [->|Hne].
    + rewrite lookup_insert_eq. simpl.
      destruct (decide (t' = t)) as [->|Hnt].
      * rewrite lookup_insert_eq. by rewrite decide_True.
      * rewrite lookup_insert_ne, lookup_empty by done.
        rewrite decide_False by (by intros [_ ?]). by rewrite Hd.
    + rewrite !lookup_insert_ne by done.
      by rewrite decide_False by (by intros [? _]).
Qed.

(** X14: [add_records] changes the cache at (domain, type) only: there it
    stores the records with the clock of the call unless an entry is
    already present, which it keeps; every other entry is as before. *)
Theorem add_records_entries (self : DNSCache) (now : Z) (d : string) (t : Z)
    (records : list DNSResourceRecord) (d' : string) (t' : Z) :
  entry_of (add_records self now d t records) d' t'
  = if decide (d' = d /\ t' = t)
    then Some (default (now, records) (entry_of self d t))
    else entry_of self d' t'.
Proof. apply add_records_at. Qed.

Lemma get_records_entry (self : DNSCache) (now : Z) (d : string) (t : Z) :
  get_records self now d t
  = match entry_of self d t with
    | Some e =>
        if _records_expired now e
        then (_remove_expired_records self d t, None)
        else (self, Some (snd e))
    | None => (self, None)
    end.
Proof.
  unfold get_records, entry_of.
  destruct (cache_data self !! d) as [inner|]; simpl; [|done].
  by destruct (inner !! t).
Qed.

Lemma _remove_expired_records_entries (self : DNSCache) (d : string) (t : Z)
    (d' : string) (t' : Z) :
  is_Some (entry_of self d t) ->
  entry_of (_remove_expired_records self d t) d' t'
  = if decide (d' = d /\ t' = t) then None else entry_of self d' t'.
Proof.
  intros [e He]. apply entry_of_Some in He as (inner & Hd & Ht).
  unfold _remove_expired_records, entry_of. rewrite Hd.
  destruct (decide (delete t inner = ∅)) as [Hempty|Hne]; simpl.
  - destruct (decide (d' = d)) as [->|Hnd].
    + rewrite lookup_delete_eq, Hd. simpl.
      case_decide; [done|].
      assert (t' <> t) as Hnt by naive_solver.
      by rewrite <- (lookup_delete_ne inner t t'), Hempty, lookup_empty.
    + rewrite lookup_delete_ne by done.
      by rewrite decide_False by (by intros [? _]).
  - destruct (decide (d' = d)) as [->|Hnd].
    + rewrite lookup_insert_eq, Hd. simpl.
      destruct (decide (t' = t)) as [->|Hnt].
      * rewrite lookup_delete_eq. by rewrite decide_True.
      * rewrite lookup_delete_ne by done.
        by rewrite decide_False by (by intros [_ ?]).
    + rewrite lookup_insert_ne by done.
      by rewrite decide_False by (by intros [? _]).
Qed.

Lemma get_records_at (self : DNSCache) (now : Z) (d : string) (t : Z)
    (d' : string) (t' : Z) :
  entry_of (fst (get_records self now d t)) d' t'
  = if decide (d' = d /\ t' = t)
    then match snd (get_records self now d t) with
         | Some _ => entry_of self d t
         | None => None
         end
    else entry_of self d' t'.
Proof.
  rewrite get_records_entry.
  destruct (entry_of self d t) as [e|] eqn:He.
  - destruct (_records_expired now e); simpl.
    + by rewrite _remove_expired_records_entries by (by rewrite He).
    + case_decide as H; [|done]. by destruct H as [-> ->].
  - simpl. case_decide as H; [|done]. by destruct H as [-> ->].
Qed.

(** X15: a read never touches another entry; the entry read is kept when
    it is served and removed when it is found expired. *)
Theorem get_records_entries (self : DNSCache) (now : Z) (d : string) (t : Z)
    (d' : string) (t' : Z) :
  entry_of (fst (get_records self now d t)) d' t'
  = if decide (d' = d /\ t' = t)
    then match snd (get_records self now d t) with
         | Some _ => entry_of self d t
         | None => None
         end
    else entry_of self d' t'.
Proof. apply get_records_at. Qed.

Lemma timedelta_seconds_bounds (now cached_time : Z) :
  (0 <= timedelta_seconds now cached_time < 86400)%Z.
Proof. unfold timedelta_seconds. apply Z.mod_pos_bound. lia. Qed.

(** X16: records stored for the first time are served by a later read, as
    stored, as long as less than a day has passed and the seconds passed
    are below every TTL. *)
Theorem add_then_get_records (self : DNSCache) (now now' : Z) (d : string)
    (t : Z) (records : list DNSResourceRecord) :
  entry_of self d t = None ->
  (0 <= now' - now < day)%Z ->
  Forall (fun r => ((now' - now) / second < ttl r)%Z) records ->
  get_records (add_records self now d t records) now' d t
  = (add_records self now d t records, Some records).
Proof.
  intros Hfree Hday Hfresh.
  pose proof (add_records_at self now d t records d t) as He.
  rewrite decide_True, Hfree in He by done. simpl in He.
  rewrite get_records_entry, He.
  assert (_records_expired now' (now, records) = false) as ->; [|done].
  apply _records_expired_false.
  by rewrite timedelta_seconds_within_a_day.
Qed.

Lemma add_then_get_records_witness :
  get_records
    (add_records {| cache_file := "cache.bin"; cache_data := ∅ |} 0
       "example.com" 1 [example_record]) second "example.com" 1
  = (add_records {| cache_file := "cache.bin"; cache_data := ∅ |} 0
       "example.com" 1 [example_record], Some [example_record]).
Proof.
  apply (add_then_get_records {| cache_file := "cache.bin"; cache_data := ∅ |}
           0 second "example.com" 1 [example_record]).
  - reflexivity.
  - vm_compute. split; [discriminate | reflexivity].
  - repeat constructor.
Defined.

(** X17: records whose TTLs are all 86400 or more are never found expired:
    every read serves them and leaves the cache as it is, however late. *)
Theorem long_ttl_never_expires (self : DNSCache) (d : string) (t : Z)
    (cached_time : Z) (records : list DNSResourceRecord) (now : Z) :
  entry_of self d t = Some (cached_time, records) ->
  Forall (fun r => (86400 <= ttl r)%Z) records ->
  get_records self now d t = (self, Some records).
Proof.
  intros He Hlong. rewrite get_records_entry, He.
  assert (_records_expired now (cached_time, records) = false) as ->; [|done].
  apply _records_expired_false.
  pose proof (timedelta_seconds_bounds now cached_time).
  eapply Forall_impl; [exact Hlong|]. simpl. intros r Hr. lia.
Qed.

Lemma long_ttl_never_expires_witness :
  get_records
    {| cache_file := "cache.bin";
       cache_data := {[ "com" := {[ 2%Z := (0%Z,
         [{| domain := "com"; record_type := 2; record_class := 1;
             ttl := 172800; data_length := 4; data := "ns" |}]) ]} ]} |}
    (400 * day) "com" 2
  = ({| cache_file := "cache.bin";
        cache_data := {[ "com" := {[ 2%Z := (0%Z,
          [{| domain := "com"; record_type := 2; record_class := 1;
              ttl := 172800; data_length := 4; data := "ns" |}]) ]} ]} |},
     Some [{| domain := "com"; record_type := 2; record_class := 1;
              ttl := 172800; data_length := 4; data := "ns" |}]).
Proof.
  eapply (long_ttl_never_expires _ "com" 2 0).
  - reflexivity.
  - repeat constructor. simpl. lia.
Defined.



Lemma add_records_domains_nonempty (self : DNSCache) (now : Z) (d : string)
    (t : Z) (records : list DNSResourceRecord) :
  domains_nonempty self -> domains_nonempty (add_records self now d t records).
Proof.
  intros Hinv d' inner'. unfold add_records.
  destruct (cache_data self !! d) as [inner|] eqn:Hd.
  - rewrite Hd. destruct (inner !! t) eqn:Ht; simpl; [apply Hinv|].
    destruct (decide (d' = d)) as [->|Hne].
    + rewrite lookup_insert_eq. intros [= <-]. apply insert_non_empty.
    + rewrite lookup_insert_ne by done. apply Hinv.
  - rewrite lookup_insert_eq, lookup_empty. simpl.
    destruct (decide (d' = d)) as [->|Hne].
    + rewrite lookup_insert_eq. intros [= <-]. apply insert_non_empty.
    + rewrite !lookup_insert_ne by done. apply Hinv.
Qed.

Lemma _remove_expired_records_domains_nonempty (self : DNSCache) (d : string)
    (t : Z) :
  domains_nonempty self -> domains_nonempty (_remove_expired_records self d t).
Proof.
  intros Hinv d' inner'. unfold _remove_expired_records.
  destruct (cache_data self !! d) as [inner|] eqn:Hd; [|apply Hinv].
  destruct (decide (delete t inner = ∅)) as [Hempty|Hne]; simpl.
  - destruct (decide (d' = d)) as [->|Hnd].
    + by rewrite lookup_delete_eq.
    + rewrite lookup_delete_ne by done. apply Hinv.
  - destruct (decide (d' = d)) as [->|Hnd].
    + rewrite lookup_insert_eq. by intros [= <-].
    + rewrite lookup_insert_ne by done. apply Hinv.
Qed.

(** X19: if no domain of the cache maps to an empty dictionary, none does
    after [add_records] or after [get_records]: a domain goes when its last
    type goes. *)
Theorem cache_domains_stay_nonempty (self : DNSCache) (now : Z) (d : string)
    (t : Z) (records : list DNSResourceRecord) :
  domains_nonempty self ->
  domains_nonempty (add_records self now d t records)
  /\ domains_nonempty (fst (get_records self now d t)).
Proof.
  intros Hinv. split; [by apply add_records_domains_nonempty|].
  rewrite get_records_entry. destruct (entry_of self d t) as [e|]; [|done].
  destruct (_records_expired now e); [|done].
  by apply _remove_expired_records_domains_nonempty.
Qed.

Lemma cache_domains_stay_nonempty_witness :
  domains_nonempty (add_records example_cache (2 * 3600 * second)
                      "example.com" 1 [second_record])
  /\ domains_nonempty (fst (get_records example_cache (2 * 3600 * second)
                              "example.com" 1)).
Proof.
  apply (cache_domains_stay_nonempty example_cache).
  intros d inner. unfold example_cache. simpl.
  destruct (decide (d = "example.com")) as [->|Hne].
  - rewrite lookup_singleton_eq. intros [= <-]. apply insert_non_empty.
  - by rewrite lookup_singleton_ne.
Defined.

(** * Further properties of names with pointers *)

(** X21: a pointer to the offset at which a name of plain labels stands in
    the packet reads as that name, and the cursor resumes behind the two
    pointer octets. *)
Theorem pointer_to_encoded_name (fuel : nat) (domain : string)
    (before encoded rest : list byte) (n pos : nat) (hi lo : byte) :
  Forall (fun l => ascii_label l = true) (split_dot domain) ->
  length (split_dot domain) < fuel ->
  encode_domain_name domain = Done (n, encoded) ->
  (before ++ encoded ++ rest) !! pos = Some hi ->
  (before ++ encoded ++ rest) !! (pos + 1) = Some lo ->
  is_pointer hi = true ->
  pointer_target hi lo = length before ->
  _read_domain_name (S fuel) (before ++ encoded ++ rest) pos
  = Done (domain, pos + 2).
Proof.
  intros Hl Hfuel Henc Hhi Hlo Hptr Htarget.
  assert (encoded = wire_labels (split_dot domain) ++ [x00]) as ->.
  { unfold encode_domain_name in Henc.
    rewrite (encode_labels_wire _ Hl) in Henc. simpl in Henc.
    by injection Henc as _ <-. }
  unfold _read_domain_name. rewrite read_loop_step, Hhi, Hptr, Hlo, Htarget.
  assert ((length (before ++ (wire_labels (split_dot domain) ++ [x00]) ++ rest)
           <=? length before) = false) as ->.
  { apply Nat.leb_gt. rewrite !length_app. simpl. lia. }
  simpl default. rewrite read_loop_resume.
  rewrite <- app_assoc. simpl app.
  rewrite (read_loop_wire _ rest Hl fuel before [] Hfuel). simpl.
  by rewrite (decode_all_encode _ Hl), join_split_dot.
Qed.

Lemma pointer_to_encoded_name_witness :
  _read_domain_name 3
    ([xff] ++ [x02; x6e; x73; x00] ++ [xee; xc0; x01]) 6
  = Done ("ns", 6 + 2).
Proof.
  apply (pointer_to_encoded_name 2 "ns" [xff] [x02; x6e; x73; x00]
           [xee; xc0; x01] 4 6 xc0 x01); try reflexivity.
  - repeat constructor.
  - simpl. lia.
Defined.

(** * Further properties of the resolver and the server *)

Lemma decoded_answers_nonempty (fuel : nat) (raw : list byte) (p : DNSPacket) :
  __post_init__ fuel raw = Done p ->
  (0 < answers_count (header p))%Z ->
  answers p <> [].
Proof.
  unfold __post_init__, _parse_header.
  destruct (unpack_6H (take 12 raw)) as [[[[[[i f] qd] an] ns] ar]| |];
    simpl; try done.
  destruct (_parse_questions fuel raw _ _) as [[qs p1]| |]; simpl; try done.
  destruct (_parse_record_section fuel raw _ p1 []) as [[ans p2]| |] eqn:H1;
    simpl; try done.
  destruct (_parse_record_section fuel raw _ p2 []) as [[auth p3]| |];
    simpl; try done.
  destruct (_parse_record_section fuel raw _ p3 []) as [[add p4]| |];
    simpl; try done.
  intros [= <-]. simpl. intros Han.
  apply _parse_record_section_length in H1. simpl in H1.
  destruct ans; [simpl in H1; lia | done].
Qed.

Lemma authority_loop_result
    (resolve : list byte -> option string -> Z -> outcome (option DNSPacket))
    (P : DNSPacket -> Prop) (dns_query : list byte) (response_packet : DNSPacket) :
  (forall q ip port r, resolve q ip port = Done (Some r) -> P r) ->
  forall auths r,
    authority_loop resolve dns_query response_packet auths = Done (Some r) ->
    P r.
Proof.
  intros Hres. induction auths as [|auth_record rest IH]; intros r; [done|].
  simpl. destruct (List.find _ _); [apply Hres|].
  destruct (_resolve_name_to_ips resolve _ _) as [[[|ip ips]|]| |]; simpl;
    try done; try apply IH.
  apply Hres.
Qed.

Lemma recursive_resolve_result (self : DNSResolver) (net : network)
    (fuel : nat) :
  forall (stack : nat) (dns_query : list byte) (ip : option string) (port : Z)
         (r : DNSPacket),
    recursive_resolve fuel stack self net dns_query ip port = Done (Some r) ->
    (0 < answers_count (header r))%Z /\ answers r <> [].
Proof.
  induction stack as [|stack IH]; intros dns_query ip port r; [done|].
  rewrite recursive_resolve_step.
  destruct (_query_dns_server _ _ _ _ _) as [response| |]; simpl; try done.
  destruct (__post_init__ fuel response) as [pkt| |] eqn:Hp; simpl; try done.
  destruct (0 <? answers_count (header pkt))%Z eqn:Han.
  - intros [= <-]. apply Z.ltb_lt in Han. split; [done|].
    by eapply decoded_answers_nonempty.
  - destruct (0 <? authority_count (header pkt))%Z; [|done].
    unfold _handle_authoritative_records.
    apply (authority_loop_result _
             (fun r => (0 < answers_count (header r))%Z /\ answers r <> [])).
    intros q ip' port' r'. apply IH.
Qed.

(** X22: whatever the upstream sends and however many referrals are
    followed, a packet that [recursive_resolve] returns announces at least
    one answer and holds at least one answer record. *)
Theorem recursive_resolve_returns_answers (fuel stack : nat)
    (self : DNSResolver) (net : network) (dns_query : list byte)
    (ip : option string) (port : Z) (r : DNSPacket) :
  recursive_resolve fuel stack self net dns_query ip port = Done (Some r) ->
  (0 < answers_count (header r))%Z /\ answers r <> [].
Proof. apply recursive_resolve_result. Qed.

Lemma recursive_resolve_returns_answers_witness :
  exists r,
    recursive_resolve 3 500 example_resolver answering mx_query None 53
    = Done (Some r)
    /\ (0 < answers_count (header r))%Z /\ answers r <> [].
Proof.
  eexists. split; [reflexivity|].
  apply (recursive_resolve_returns_answers 3 500 example_resolver answering
           mx_query None 53). reflexivity.
Defined.

(** X23: when the socket to the root server raises, a question that is not
    in the cache gets an empty answer list, and the cache stays as it
    is. *)
Theorem unreachable_root_gives_no_answer (fuel stack : nat) (cacher : DNSCache)
    (resolver : DNSResolver) (net : network) (now now' : Z)
    (question : DNSQuestion) (packet_id : Z) (q_request : list byte) (e : exn) :
  entry_of cacher (q_domain question) (q_record_type question) = None ->
  build_query_packet packet_id (q_domain question) (q_record_type question)
    (q_record_class question) = Done q_request ->
  net (or_root_ip resolver None) 53%Z q_request = Raise e ->
  _process_question fuel stack cacher resolver net now now' question packet_id
  = (cacher, Done (RList [])).
Proof.
  intros Hmiss Hq Hnet. unfold _process_question.
  rewrite get_records_entry, Hmiss, Hq.
  destruct stack as [|stack]; [done|].
  rewrite recursive_resolve_step. unfold _query_dns_server.
  change (or_root_port resolver 53) with 53%Z. by rewrite Hnet.
Qed.

Lemma unreachable_root_gives_no_answer_witness :
  _process_question 1 500 {| cache_file := "cache.bin"; cache_data := ∅ |}
    example_resolver (fun _ _ _ => Raise SocketError) 0 0 example_question 7
  = ({| cache_file := "cache.bin"; cache_data := ∅ |}, Done (RList [])).
Proof.
  eapply (unreachable_root_gives_no_answer 1 500 _ example_resolver
            (fun _ _ _ => Raise SocketError) 0 0 example_question 7);
    reflexivity.
Defined.

(** X24: when a question is not in the cache and the resolver returns a
    packet, the answer records of that packet are handed back and stored
    under the question's domain and type with the clock of that moment. *)
Theorem resolved_answers_are_cached (fuel stack : nat) (cacher : DNSCache)
    (resolver : DNSResolver) (net : network) (now now' : Z)
    (question : DNSQuestion) (packet_id : Z) (q_request : list byte)
    (answer : DNSPacket) :
  entry_of cacher (q_domain question) (q_record_type question) = None ->
  build_query_packet packet_id (q_domain question) (q_record_type question)
    (q_record_class question) = Done q_request ->
  recursive_resolve fuel stack resolver net q_request None 53
  = Done (Some answer) ->
  _process_question fuel stack cacher resolver net now now' question packet_id
  = (add_records cacher now' (q_domain question) (q_record_type question)
       (answers answer),
     Done (RList (answers answer)))
  /\ entry_of (add_records cacher now' (q_domain question)
                 (q_record_type question) (answers answer))
       (q_domain question) (q_record_type question)
     = Some (now', answers answer).
Proof.
  intros Hmiss Hq Hres. split.
  - unfold _process_question. rewrite get_records_entry, Hmiss, Hq, Hres.
    apply recursive_resolve_result in Hres as [_ Hne].
    by destruct (answers answer).
  - destruct (add_records_fresh cacher now' (q_domain question)
                (q_record_type question) (answers answer))
      as (inner & Hd & Ht).
    + intros inner Hd. destruct (inner !! q_record_type question) eqn:Ht;
        [|done].
      assert (is_Some (entry_of cacher (q_domain question)
                         (q_record_type question))) as [? H]
        by (eexists; apply entry_of_Some; eauto).
      by rewrite Hmiss in H.
    + apply entry_of_Some. eauto.
Qed.

Lemma resolved_answers_are_cached_witness :
  exists answer,
    recursive_resolve 3 500 example_resolver answering mx_query None 53
    = Done (Some answer)
    /\ _process_question 3 500 {| cache_file := "cache.bin"; cache_data := ∅ |}
         example_resolver answering 0 second
         {| q_domain := "a.bc"; q_record_type := 15; q_record_class := 3 |}
         0x1234
       = (add_records {| cache_file := "cache.bin"; cache_data := ∅ |} second
            "a.bc" 15 (answers answer),
          Done (RList (answers answer)))
    /\ entry_of (add_records {| cache_file := "cache.bin"; cache_data := ∅ |}
                   second "a.bc" 15 (answers answer)) "a.bc" 15
       = Some (second, answers answer).
Proof.
  eexists. split; [reflexivity|].
  apply (resolved_answers_are_cached 3 500
           {| cache_file := "cache.bin"; cache_data := ∅ |} example_resolver
           answering 0 second
           {| q_domain := "a.bc"; q_record_type := 15; q_record_class := 3 |}
           0x1234 mx_query); reflexivity.
Defined.

(** ** One datagram *)

Lemma process_questions_hit (fuel stack : nat) (cacher cacher' : DNSCache)
    (resolver : DNSResolver) (net : network) (clock : nat -> Z * Z) (i : nat)
    (question : DNSQuestion) (rest : list DNSQuestion) (packet_id : Z)
    (total : list DNSResourceRecord) (cached_records : list DNSResourceRecord) :
  get_records cacher (fst (clock i)) (q_domain question) (q_record_type question)
  = (cacher', Some cached_records) ->
  exists e,
    process_questions fuel stack cacher resolver net clock i (question :: rest)
      packet_id total = (cacher', Raise e).
Proof.
  intros Hget. cbn [process_questions].
  rewrite (_process_question_hit _ _ _ _ _ _ _ _ _ _ _ Hget).
  destruct (cached_records !! 1); simpl; eauto.
Qed.

(** X26: a request that fails to decode is answered with its first two
    bytes followed by 84 00 and eight zero bytes, and the cache is left
    alone; so is every request of fewer than 12 bytes. *)
Theorem undecodable_request_gets_error_response (fuel stack : nat)
    (cacher : DNSCache) (resolver : DNSResolver) (net : network)
    (clock : nat -> Z * Z) (request : list byte) :
  (exists e, __post_init__ fuel request = Raise e) \/ length request < 12 ->
  _handle_client fuel stack cacher resolver net clock request
  = (cacher,
     Done (take 2 request ++ [x84; x00; x00; x00; x00; x00; x00; x00; x00; x00])).
Proof.
  intros H.
  assert (exists e, __post_init__ fuel request = Raise e) as [e He].
  { destruct H as [H|H]; [done|].
    exists StructError. unfold __post_init__, _parse_header.
    rewrite take_ge by lia.
    do 12 (destruct request as [|? request]; [done|]). simpl in H. lia. }
  unfold _handle_client. rewrite He. by rewrite create_error_response_bytes.
Qed.

Lemma undecodable_request_gets_error_response_witness :
  _handle_client 5 500 example_cache example_resolver silent
    (fun _ => (second, second)) [xab; xcd; x00; x00]
  = (example_cache,
     Done (take 2 [xab; xcd; x00; x00]
           ++ [x84; x00; x00; x00; x00; x00; x00; x00; x00; x00])).
Proof.
  apply (undecodable_request_gets_error_response 5 500 example_cache
           example_resolver silent (fun _ => (second, second))
           [xab; xcd; x00; x00]).
  right. simpl. lia.
Defined.

(** X27: a request whose first question is served by the cache is answered
    with the error response: indexing the cached list with 1 raises, or
    hands a single record to the answer list, which cannot take it in. *)
Theorem cached_question_gets_error_response (fuel stack : nat)
    (cacher cacher' : DNSCache) (resolver : DNSResolver) (net : network)
    (clock : nat -> Z * Z) (request : list byte) (request_package : DNSPacket)
    (question : DNSQuestion) (rest : list DNSQuestion)
    (cached_records : list DNSResourceRecord) :
  __post_init__ fuel request = Done request_package ->
  questions request_package = question :: rest ->
  get_records cacher (fst (clock 0)) (q_domain question) (q_record_type question)
  = (cacher', Some cached_records) ->
  _handle_client fuel stack cacher resolver net clock request
  = (cacher',
     Done (take 2 request ++ [x84; x00; x00; x00; x00; x00; x00; x00; x00; x00])).
Proof.
  intros Hp Hq Hget. unfold _handle_client. rewrite Hp, Hq.
  destruct (process_questions_hit fuel stack cacher cacher' resolver net clock 0
              question rest (packet_id (header request_package)) []
              cached_records Hget) as [e ->].
  by rewrite create_error_response_bytes.
Qed.

Lemma cached_question_gets_error_response_witness :
  exists query,
    build_query_packet 0x1234 "example.com" 1 1 = Done query
    /\ _handle_client 3 500 example_cache example_resolver answering
         (fun _ => (second, second)) query
       = (example_cache,
          Done (take 2 query ++ [x84; x00; x00; x00; x00; x00; x00; x00; x00; x00])).
Proof.
  eexists. split; [reflexivity|].
  eapply (cached_question_gets_error_response 3 500 example_cache example_cache
            example_resolver answering (fun _ => (second, second)) _ _
            example_question []); reflexivity.
Defined.

Lemma add_records_entries_nonempty (self : DNSCache) (now : Z) (d : string)
    (t : Z) (records : list DNSResourceRecord) :
  records <> [] ->
  entries_nonempty self ->
  entries_nonempty (add_records self now d t records).
Proof.
  intros Hne Hinv d' t' ts rs. rewrite add_records_at.
  case_decide as H; [|apply Hinv].
  destruct (entry_of self d t) as [[ts0 rs0]|] eqn:He; simpl.
  - intros [= <- <-]. by eapply Hinv.
  - by intros [= <- <-].
Qed.

Lemma get_records_entries_nonempty (self : DNSCache) (now : Z) (d : string)
    (t : Z) :
  entries_nonempty self -> entries_nonempty (fst (get_records self now d t)).
Proof.
  intros Hinv d' t' ts rs. rewrite get_records_at.
  case_decide as H; [|apply Hinv].
  destruct (snd (get_records self now d t)); [apply Hinv | done].
Qed.

Lemma _process_question_entries_nonempty (fuel stack : nat) (cacher : DNSCache)
    (resolver : DNSResolver) (net : network) (now now' : Z)
    (question : DNSQuestion) (packet_id : Z) :
  entries_nonempty cacher ->
  entries_nonempty
    (fst (_process_question fuel stack cacher resolver net now now' question
            packet_id)).
Proof.
  intros Hinv. unfold _process_question.
  pose proof (get_records_entries_nonempty cacher now (q_domain question)
                (q_record_type question) Hinv) as Hget.
  destruct (get_records cacher now _ _) as [c [rs|]]; simpl in Hget.
  - by destruct (rs !! 1).
  - destruct (build_query_packet _ _ _ _) as [q| |]; try done.
    destruct (recursive_resolve _ _ _ _ _ _ _) as [[answer|]| |]; try done.
    destruct (answers answer) as [|r rs] eqn:Ha; [done|]. simpl.
    by apply add_records_entries_nonempty.
Qed.

Lemma process_questions_entries_nonempty (fuel stack : nat)
    (resolver : DNSResolver)
    (net : network) (clock : nat -> Z * Z) (packet_id : Z)
    (qs : list DNSQuestion) :
  forall (cacher : DNSCache) (i : nat) (total : list DNSResourceRecord),
    entries_nonempty cacher ->
    entries_nonempty
      (fst (process_questions fuel stack cacher resolver net clock i qs
              packet_id total)).
Proof.
  induction qs as [|q qs IH]; intros cacher i total Hinv; [done|].
  cbn [process_questions].
  pose proof (_process_question_entries_nonempty fuel stack cacher resolver net
                (fst (clock i)) (snd (clock i)) q packet_id Hinv) as Hq.
  destruct (_process_question _ _ _ _ _ _ _ _ _) as [c [records| |]];
    simpl in Hq; try done.
  destruct (extend total records); try done. by apply IH.
Qed.

(** X28: handling a datagram never puts an entry with an empty record list
    into the cache: if the cache had none before, it has none after. *)
Theorem handle_client_keeps_entries_nonempty (fuel stack : nat)
    (cacher : DNSCache)
    (resolver : DNSResolver) (net : network) (clock : nat -> Z * Z)
    (request : list byte) :
  entries_nonempty cacher ->
  entries_nonempty
    (fst (_handle_client fuel stack cacher resolver net clock request)).
Proof.
  intros Hinv. unfold _handle_client.
  destruct (__post_init__ fuel request) as [pkg| |]; try done.
  pose proof (process_questions_entries_nonempty fuel stack resolver net clock
                (packet_id (header pkg)) (questions pkg) cacher 0 [] Hinv) as Hq.
  destruct (process_questions _ _ _ _ _ _ _ _ _ _) as [c [total| |]];
    simpl in Hq; try done.
  by destruct (build_response_packet _ _ _).
Qed.

Lemma handle_client_keeps_entries_nonempty_witness :
  entries_nonempty
    (fst (_handle_client 3 500 {| cache_file := "cache.bin"; cache_data := ∅ |}
            example_resolver answering (fun _ => (0%Z, second)) mx_query)).
Proof.
  apply (handle_client_keeps_entries_nonempty 3 500
           {| cache_file := "cache.bin"; cache_data := ∅ |}).
  intros d t ts rs. unfold entry_of. simpl. by rewrite lookup_empty.
Defined.
